(** * layout3mesh: a shallow embedding of the layer-stack resolver and of the
      polygon classification / scene composition of [render_to_mesh]

    Sources embedded here:
      - [src/layout3mesh/data.py]       (Material, LayerMetadata,
                                         LayerProperties, Layer, LayerStack)
      - [src/layout3mesh/layout3mesh.py] (load_layerstack,
                                         _is_counter_clockwise, render_to_mesh)

    Conventions of the embedding.
      - Python lists are [list]; an insertion-ordered [dict] is an association
        list in insertion order (order matters for [layerstack.values()],
        for "first match by name" and for the order of scene nodes).
      - Numbers are exact integers [Z].  YAML integers are Python integers, so
        the embedding is exact for them; floating-point scalars are outside
        the model.  Polygon coordinates are likewise taken on the integer grid.
      - Exceptions are values of [pyerr] carried by a [result] type.
      - The in-place mutation of the via pass is modelled by updating the list
        of stored [Layer] objects at the position of the mutated object. *)

From Stdlib Require Import List ZArith Lia Bool String Ascii.
From Stdlib Require Import DecimalString.
From Stdlib Require HexadecimalString.
Import ListNotations.

Local Open Scope string_scope.
Local Open Scope Z_scope.

Set Implicit Arguments.

(* ================================================================== *)
(** ** Polygon rings, edges and the turn classifier                     *)
(* ================================================================== *)

Module Geometry.

(** A vertex of [poly.points]: one row of the (n,2) array. *)
Definition point : Type := (Z * Z)%type.

(** A directed edge, one element of [zip(vertices[:-1], vertices[1:])]. *)
Definition edge : Type := (point * point)%type.

Definition point_eqb (p q : point) : bool :=
  (fst p =? fst q) && (snd p =? snd q).

Definition edge_eqb (e f : edge) : bool :=
  point_eqb (fst e) (fst f) && point_eqb (snd e) (snd f).

(** [a - b] on rows of the vertex array. *)
Definition vsub (a b : point) : point := (fst a - fst b, snd a - snd b).

(** [np.cross] on two 2-vectors: the z component of the cross product. *)
Definition cross (u v : point) : Z := fst u * snd v - snd u * fst v.

(** [_is_counter_clockwise(e1, e2)]:
      vec1 = e1[1] - e1[0]; vec2 = e2[1] - e2[0]
      return np.cross(vec1, vec2) <= 0 *)
Definition _is_counter_clockwise (e1 e2 : edge) : bool :=
  let vec1 := vsub (snd e1) (fst e1) in
  let vec2 := vsub (snd e2) (fst e2) in
  cross vec1 vec2 <=? 0.

(** [edges = list(zip(vertices[:-1], vertices[1:]))] *)
Definition edges (vertices : list point) : list edge :=
  combine (removelast vertices) (tl vertices).

(** [edge_pairs = list(zip(edges[:-1], edges[1:]))] *)
Definition edge_pairs (es : list edge) : list (edge * edge) :=
  combine (removelast es) (tl es).

Section FromKeys.
Variable A : Type.
Variable eqb : A -> A -> bool.

Fixpoint mem (x : A) (l : list A) : bool :=
  match l with
  | [] => false
  | y :: l' => eqb y x || mem x l'
  end.

(** One insertion of a key into an ordered dict of keys: a key already
    present keeps its place. *)
Definition add_key (d : list A) (x : A) : list A :=
  if mem x d then d else d ++ [x].

(** [list(OrderedDict.fromkeys(xs))]: the keys in first-seen order. *)
Definition fromkeys (xs : list A) : list A := fold_left add_key xs [].
End FromKeys.

(** The two members of an edge pair / the two end points of an edge, in
    order: [list(ep)] and [for v in e]. *)
Definition members (A : Type) (p : A * A) : list A := [fst p; snd p].

Definition is_ccw_pair (ep : edge * edge) : bool :=
  _is_counter_clockwise (fst ep) (snd ep).

(** Lines 226-229: the de-duplicated edges of the counter-clockwise pairs. *)
Definition shell_edges (eps : list (edge * edge)) : list edge :=
  fromkeys edge_eqb (flat_map (@members edge) (filter is_ccw_pair eps)).

(** Lines 230-232. *)
Definition shell_of_pairs (eps : list (edge * edge)) : list point :=
  fromkeys point_eqb (flat_map (@members point) (shell_edges eps)).

(** Lines 235-240: the de-duplicated edges of the clockwise pairs, reversed. *)
Definition holes_edges (eps : list (edge * edge)) : list edge :=
  rev (fromkeys edge_eqb
         (flat_map (@members edge)
            (filter (fun ep => negb (is_ccw_pair ep)) eps))).

(** Lines 241-243. *)
Definition holes_of_pairs (eps : list (edge * edge)) : list point :=
  fromkeys point_eqb (flat_map (@members point) (holes_edges eps)).

(** The shell / holes handed to [Polygon(shell=..., holes=...)] for the ring
    [vertices = poly.points]. *)
Definition shell (vertices : list point) : list point :=
  shell_of_pairs (edge_pairs (edges vertices)).

Definition holes (vertices : list point) : list point :=
  holes_of_pairs (edge_pairs (edges vertices)).

End Geometry.

(* ================================================================== *)
(** ** Python values, exceptions and the monads of the embedding       *)
(* ================================================================== *)

Module Py.

(** The exceptions the embedded code can raise.  [assert c, m] raises
    [AssertionError] carrying [m]; [External] stands for an exception raised
    inside a collaborating library (shapely, trimesh, gdstk). *)
Inductive pyerr : Type :=
| AssertionError (msg : string)
| ValueError (msg : string)
| AttributeError
| TypeError
| IndexError
| KeyError
| External (msg : string).

Inductive result (A : Type) : Type :=
| Ok (a : A)
| Raise (e : pyerr).
Arguments Ok {A} a.
Arguments Raise {A} e.

Class Monad (m : Type -> Type) : Type := {
  ret : forall A, A -> m A;
  bind : forall A B, m A -> (A -> m B) -> m B;
  throw : forall A, pyerr -> m A
}.
Arguments ret {m _ A} _.
Arguments bind {m _ A B} _ _.
Arguments throw {m _ A} _.

Notation "x <- c ;; k" := (bind c (fun x => k))
  (at level 61, c at next level, right associativity).
Notation "c ;;; k" := (bind c (fun _ => k))
  (at level 61, right associativity).

#[export] Instance result_monad : Monad result := {
  ret := fun A a => Ok a;
  bind := fun A B c k => match c with Ok a => k a | Raise e => Raise e end;
  throw := fun A e => Raise e
}.

(** [assert c, msg] *)
Definition py_assert {m} `{Monad m} (c : bool) (msg : string) : m unit :=
  if c then ret tt else throw (AssertionError msg).

(** What [yaml.safe_load] returns: [None], integers, strings, lists and
    mappings with string keys (in document order). *)
#[local] Set Warnings "-register-all".
Inductive value : Type :=
| VNone
| VInt (z : Z)
| VStr (s : string)
| VList (l : list value)
| VDict (d : list (string * value)).

(** Python truthiness, [bool(v)]. *)
Definition truthy (v : value) : bool :=
  match v with
  | VNone => false
  | VInt z => negb (z =? 0)
  | VStr s => negb (s =? EmptyString)%string
  | VList l => match l with [] => false | _ => true end
  | VDict d => match d with [] => false | _ => true end
  end.

Definition is_none (v : value) : bool :=
  match v with VNone => true | _ => false end.

(** Lookup in an insertion-ordered dict. *)
Fixpoint assoc (A : Type) (k : string) (d : list (string * A)) : option A :=
  match d with
  | [] => None
  | (k', v) :: d' => if (k' =? k)%string then Some v else assoc k d'
  end.

(** [v.get(k)]: [None] for a missing key, [AttributeError] when [v] is not a
    mapping. *)
Definition py_get (v : value) (k : string) : result value :=
  match v with
  | VDict d => Ok (match assoc k d with Some x => x | None => VNone end)
  | _ => Raise AttributeError
  end.

(** [v[k]] with a string key. *)
Definition py_item (v : value) (k : string) : result value :=
  match v with
  | VDict d => match assoc k d with Some x => Ok x | None => Raise KeyError end
  | _ => Raise TypeError
  end.

(** [v.items()] *)
Definition py_items (v : value) : result (list (string * value)) :=
  match v with
  | VDict d => Ok d
  | _ => Raise AttributeError
  end.

(** [v == s] for a string literal [s]. *)
Definition py_eq_str (v : value) (s : string) : bool :=
  match v with VStr t => (t =? s)%string | _ => false end.

(** [a + b] *)
Definition py_add (a b : value) : result value :=
  match a, b with
  | VInt x, VInt y => Ok (VInt (x + y))
  | VStr x, VStr y => Ok (VStr (x ++ y))
  | VList x, VList y => Ok (VList (x ++ y))
  | _, _ => Raise TypeError
  end.

(** [a - b] *)
Definition py_sub (a b : value) : result value :=
  match a, b with
  | VInt x, VInt y => Ok (VInt (x - y))
  | _, _ => Raise TypeError
  end.

(** [str(n)] for an integer. *)
Definition str_of_Z (n : Z) : string := NilZero.string_of_int (Z.to_int n).

(** Hashable scalars: the components of a [(ly, dt)] dict key. *)
Inductive atom : Type :=
| ANone
| AInt (z : Z)
| AStr (s : string).

Definition atom_eqb (a b : atom) : bool :=
  match a, b with
  | ANone, ANone => true
  | AInt x, AInt y => x =? y
  | AStr x, AStr y => (x =? y)%string
  | _, _ => false
  end.

(** Hashing a component of a key: lists and dicts are unhashable. *)
Definition to_atom (v : value) : result atom :=
  match v with
  | VNone => Ok ANone
  | VInt z => Ok (AInt z)
  | VStr s => Ok (AStr s)
  | VList _ | VDict _ => Raise TypeError
  end.

(** [f"{a}"] *)
Definition str_of_atom (a : atom) : string :=
  match a with
  | ANone => "None"
  | AInt z => str_of_Z z
  | AStr s => s
  end.

End Py.
Export Py.

(* ================================================================== *)
(** ** data.py                                                          *)
(* ================================================================== *)

Module Data.

Record Material : Type := mkMaterial {
  text : value;
  rgba : value
}.

Record LayerMetadata : Type := mkLayerMetadata {
  type : value;
  keys : value;
  material : Material
}.

Record LayerProperties : Type := mkLayerProperties {
  ly : value;
  dt : value;
  top : value;
  bot : value;
  zh : value;
  th : value;
  mw : value;
  sqrres : value;
  dc_avgcd : value;
  ac_rmscd : value;
  sqrcap : value
}.

(** A [(ly, dt)] tuple used as a dict key. *)
Definition lydt_key : Type := (atom * atom)%type.

Definition key_eqb (k1 k2 : lydt_key) : bool :=
  atom_eqb (fst k1) (fst k2) && atom_eqb (snd k1) (snd k2).

Record Layer : Type := mkLayer {
  name : string;
  lydt : lydt_key;
  metadata : option LayerMetadata;
  properties : option LayerProperties
}.

(** A dict keyed by [(ly, dt)] tuples, in insertion order. *)
Section KeyDict.
Variable A : Type.

(** [d.get(key)] *)
Fixpoint dict_get (key : lydt_key) (d : list (lydt_key * A)) : option A :=
  match d with
  | [] => None
  | (k, l) :: d' => if key_eqb k key then Some l else dict_get key d'
  end.

(** [d[key] = value]: an existing key keeps its position. *)
Fixpoint dict_set (key : lydt_key) (v : A) (d : list (lydt_key * A))
  : list (lydt_key * A) :=
  match d with
  | [] => [(key, v)]
  | (k, l) :: d' =>
      if key_eqb k key then (k, v) :: d' else (k, l) :: dict_set key v d'
  end.

(** [del d[key]]: [KeyError] when the key is absent. *)
Fixpoint dict_del (key : lydt_key) (d : list (lydt_key * A))
  : result (list (lydt_key * A)) :=
  match d with
  | [] => Raise KeyError
  | (k, l) :: d' =>
      if key_eqb k key then Ok d'
      else match dict_del key d' with
           | Ok r => Ok ((k, l) :: r)
           | Raise e => Raise e
           end
  end.

Definition dict_keys (d : list (lydt_key * A)) : list lydt_key := map fst d.
Definition dict_values (d : list (lydt_key * A)) : list A := map snd d.
End KeyDict.

(** [Dict[Tuple[int, int], Layer]] *)
Definition layer_dict : Type := list (lydt_key * Layer).

Record LayerStack : Type := mkLayerStack {
  layers : layer_dict
}.

(** [LayerStack.__getitem__]: [return self.layers.get(key)]; the Python
    [None] is [None] here. *)
Definition getitem (self : LayerStack) (key : lydt_key) : option Layer :=
  dict_get key (layers self).

(** [LayerStack.__setitem__] *)
Definition setitem (self : LayerStack) (key : lydt_key) (v : Layer)
  : LayerStack :=
  mkLayerStack (dict_set key v (layers self)).

(** [LayerStack.__len__] *)
Definition len (self : LayerStack) : nat := List.length (layers self).

(** [LayerStack.__delitem__]: [del self.layers[key]] *)
Definition delitem (self : LayerStack) (key : lydt_key) : result LayerStack :=
  match dict_del key (layers self) with
  | Ok d => Ok (mkLayerStack d)
  | Raise e => Raise e
  end.

(** What a [Layer] can be compared with: another [Layer], a tuple of
    scalars, or an object of any other kind. *)
Inductive pyobj : Type :=
| OLayer (l : Layer)
| OTuple (elems : list atom)
| OOther.

(** The tuple [self.lydt]. *)
Definition tuple_of_key (k : lydt_key) : list atom := [fst k; snd k].

(** Equality of tuples: same length and equal components. *)
Fixpoint atoms_eqb (xs ys : list atom) : bool :=
  match xs, ys with
  | [], [] => true
  | x :: xs', y :: ys' => atom_eqb x y && atoms_eqb xs' ys'
  | _, _ => false
  end.

(** [Layer.__eq__] *)
Definition layer_eq (self : Layer) (other : pyobj) : bool :=
  match other with
  | OLayer l => key_eqb (lydt self) (lydt l)
  | OTuple t => atoms_eqb (tuple_of_key (lydt self)) t
  | OOther => false
  end.

(** [Layer.__ne__] *)
Definition layer_ne (self : Layer) (other : pyobj) : bool :=
  negb (layer_eq self other).

(** [Layer.__hash__]: [hash(self.lydt)], for the interpreter's hash of a
    tuple. *)
Definition layer_hash (py_hash : list atom -> Z) (self : Layer) : Z :=
  py_hash (tuple_of_key (lydt self)).

(** [Layer.__getitem__]: [self.lydt[index]] for an integer index. *)
Definition layer_getitem (self : Layer) (index : Z) : result atom :=
  if index =? 0 then Ok (fst (lydt self))
  else if index =? 1 then Ok (snd (lydt self))
  else if index =? -1 then Ok (snd (lydt self))
  else if index =? -2 then Ok (fst (lydt self))
  else Raise IndexError.

(** Lower-case hexadecimal digits of a natural number. *)
Definition hex_of_N (n : N) : string :=
  HexadecimalString.NilZero.string_of_uint (N.to_hex_uint n).

(** ["%02x" % n]: the sign, then the digits, zero-padded to width 2. *)
Definition fmt_02x (n : Z) : string :=
  let digits := hex_of_N (Z.abs_N n) in
  if n <? 0 then "-" ++ digits
  else if Nat.ltb (String.length digits) 2 then "0" ++ digits
  else digits.

(** The right operand of [%]: a tuple supplies one argument per
    conversion, anything else is one argument. *)
Inductive fmt_args : Type :=
| ArgTuple (vs : list value)
| ArgSingle (v : value).

(** [n] conversions [%02x] applied to the arguments [vs]: too few or too
    many arguments and arguments that are not integers raise [TypeError]. *)
Fixpoint fmt_hex_fields (n : nat) (vs : list value) : result string :=
  match n, vs with
  | O, [] => Ok EmptyString
  | O, _ :: _ => Raise TypeError
  | S _, [] => Raise TypeError
  | S n', VInt z :: vs' =>
      match fmt_hex_fields n' vs' with
      | Ok s => Ok (fmt_02x z ++ s)
      | Raise e => Raise e
      end
  | S _, _ :: _ => Raise TypeError
  end.

(** ["#%02x...%02x" % args] with [n] conversions ([n] is 3 or 4). *)
Definition format_hex (n : nat) (args : fmt_args) : result string :=
  match fmt_hex_fields n (match args with
                          | ArgTuple vs => vs
                          | ArgSingle v => [v]
                          end) with
  | Ok s => Ok ("#" ++ s)
  | Raise e => Raise e
  end.

(** [Material.rgb]: [tuple(self.rgba[:3])].  Lists and strings can be
    sliced; [None], integers and mappings raise [TypeError]. *)
Definition rgb (self : Material) : result (list value) :=
  match rgba self with
  | VList l => Ok (firstn 3 l)
  | VStr s =>
      Ok (map (fun c => VStr (String c EmptyString))
              (firstn 3 (list_ascii_of_string s)))
  | VNone | VInt _ | VDict _ => Raise TypeError
  end.

(** [Material.hex]: ["#%02x%02x%02x" % self.rgb] *)
Definition hex (self : Material) : result string :=
  match rgb self with
  | Ok t => format_hex 3 (ArgTuple t)
  | Raise e => Raise e
  end.

(** [Material.hexa]: ["#%02x%02x%02x%02x" % self.rgba]; [self.rgba] is not
    a tuple. *)
Definition hexa (self : Material) : result string :=
  format_hex 4 (ArgSingle (rgba self)).

End Data.
Export Data.

(* ================================================================== *)
(** ** load_layerstack                                                  *)
(* ================================================================== *)

Module Loader.

Definition _LAYERSTACK_FILE_EXTENSIONS : list string :=
  [".yaml"; ".yml"; ".ymls"].

Definition str_mem (s : string) (l : list string) : bool :=
  existsb (fun t => (t =? s)%string) l.

(** [str([field for field in fields if field is None])] *)
Definition repr_nones (fields : list value) : string :=
  "[" ++ String.concat ", " (map (fun _ => "None") (filter is_none fields))
      ++ "]".

(** Lines 84-93, the body of [if layer.get("metadata"):]. *)
Definition build_metadata (layerkey : string) (layer : value)
  : result LayerMetadata :=
  md <- py_item layer "metadata" ;;
  rgba_v <- py_get md "rgba" ;;
  text_v <- py_get md "text" ;;
  let material := mkMaterial text_v rgba_v in
  ty <- py_get md "type" ;;
  py_assert (truthy ty)
    ("Layer " ++ layerkey ++ " is missing metadata type.") ;;;
  type_v <- py_get md "type" ;;
  keys_v <- py_get md "keys" ;;
  ret (mkLayerMetadata type_v keys_v material).

(** Lines 80-115, one iteration of the loop over
    [layerstack_yaml["layers"].items()]: the [Layer] built for one named
    entry, stored afterwards under its [lydt]. *)
Definition build_layer (layerkey : string) (layer : value) : result Layer :=
  md <- py_get layer "metadata" ;;
  py_assert (truthy md) ("Layer " ++ layerkey ++ " is missing metadata.") ;;;
  md' <- py_get layer "metadata" ;;
  metadata <- (if truthy md'
               then m <- build_metadata layerkey layer ;; ret (Some m)
               else ret None) ;;
  pr <- py_get layer "properties" ;;
  py_assert (truthy pr) ("Layer " ++ layerkey ++ " is missing properties.") ;;;
  props <- py_item layer "properties" ;;
  f_ly <- py_get props "ly" ;;
  f_dt <- py_get props "dt" ;;
  let fields := [f_ly; f_dt] in
  if existsb is_none fields
  then throw (ValueError ("Layer " ++ layerkey ++ " is missing properties: "
                            ++ repr_nones fields))
  else
    ly_v <- py_get props "ly" ;;
    dt_v <- py_get props "dt" ;;
    zh_v <- py_get props "zh" ;;
    th_v <- py_get props "th" ;;
    top_v <- py_get props "top" ;;
    bot_v <- py_get props "bot" ;;
    let properties :=
      mkLayerProperties ly_v dt_v top_v bot_v zh_v th_v
                        VNone VNone VNone VNone VNone in
    k_ly <- to_atom ly_v ;;
    k_dt <- to_atom dt_v ;;
    let lydt := (k_ly, k_dt) in
    ret (mkLayer layerkey lydt metadata (Some properties)).

(** The first loop.  The second component is the loop variable [layerkey],
    which Python leaves bound to the last key after the loop. *)
Fixpoint build_layers (items : list (string * value))
                      (layerstack : layer_dict) (layerkey : string)
  : result (layer_dict * string) :=
  match items with
  | [] => ret (layerstack, layerkey)
  | (k, layer) :: rest =>
      l <- build_layer k layer ;;
      build_layers rest (dict_set (lydt l) l layerstack) k
  end.

(** [layer.metadata.type == "cut"] *)
Definition is_cut (l : Layer) : result bool :=
  match metadata l with
  | None => Raise AttributeError
  | Some m => Ok (py_eq_str (type m) "cut")
  end.

(** [via_layers = [layer for layer in layerstack.values()
                   if layer.metadata.type == "cut"]].
    The list holds references to the stored objects; an object is identified
    by its position in [layerstack.values()]. *)
Fixpoint via_positions (vals : list Layer) (i : nat) : result (list nat) :=
  match vals with
  | [] => ret []
  | l :: vals' =>
      c <- is_cut l ;;
      ps <- via_positions vals' (S i) ;;
      ret (if (c : bool) then i :: ps else ps)
  end.

(** [[layer for layer in layerstack.values() if layer.name == nm][0]] *)
Fixpoint first_by_name (nm : value) (vals : list Layer) : result Layer :=
  match vals with
  | [] => Raise IndexError
  | l :: vals' =>
      if py_eq_str nm (name l) then Ok l else first_by_name nm vals'
  end.

(** [l.properties], raising as attribute access on [None] does. *)
Definition props_of (l : Layer) : result LayerProperties :=
  match properties l with
  | Some p => Ok p
  | None => Raise AttributeError
  end.

Definition set_zh_th (p : LayerProperties) (zh' th' : value)
  : LayerProperties :=
  mkLayerProperties (ly p) (dt p) (top p) (bot p) zh' th'
                    (mw p) (sqrres p) (dc_avgcd p) (ac_rmscd p) (sqrcap p).

(** The via layer after the two assignments of lines 134-135. *)
Definition with_zh_th (l : Layer) (p : LayerProperties) (zh' th' : value)
  : Layer :=
  mkLayer (name l) (lydt l) (metadata l) (Some (set_zh_th p zh' th')).

(** Replace the object stored at position [i], keeping its key. *)
Fixpoint store_at (i : nat) (l' : Layer) (d : layer_dict) : layer_dict :=
  match d, i with
  | [], _ => []
  | (k, _) :: d', O => (k, l') :: d'
  | kv :: d', S j => kv :: store_at j l' d'
  end.

(** Lines 121-135, the body of the loop for the via object at position [i]
    of the current store. *)
Definition via_step (layerkey : string) (d : layer_dict) (i : nat)
  : result layer_dict :=
  match nth_error (dict_values d) i with
  | None => Raise IndexError
  | Some via_layer =>
      p <- props_of via_layer ;;
      let top_v := top p in
      let bot_v := bot p in
      py_assert (truthy top_v)
        ("Layer " ++ layerkey ++ " is missing top property.") ;;;
      py_assert (truthy bot_v)
        ("Layer " ++ layerkey ++ " is missing bot property.") ;;;
      top_layer <- first_by_name top_v (dict_values d) ;;
      bot_layer <- first_by_name bot_v (dict_values d) ;;
      bp <- props_of bot_layer ;;
      let bot_th := th bp in
      tp <- props_of top_layer ;;
      let top_zh := zh tp in
      let bot_zh := zh bp in
      zh' <- py_add bot_zh bot_th ;;
      th' <- py_sub top_zh zh' ;;
      ret (store_at i (with_zh_th via_layer p zh' th') d)
  end.

(** The loop [for via_layer in via_layers]. *)
Fixpoint via_loop (layerkey : string) (ps : list nat) (d : layer_dict)
  : result layer_dict :=
  match ps with
  | [] => ret d
  | i :: ps' => d' <- via_step layerkey d i ;; via_loop layerkey ps' d'
  end.

(** Lines 117-135: the via-resolution pass. *)
Definition resolve_vias (layerkey : string) (d : layer_dict)
  : result layer_dict :=
  ps <- via_positions (dict_values d) 0 ;;
  via_loop layerkey ps d.

(** Lines 75-138: from the parsed document to the [LayerStack]. *)
Definition load_layerstack_yaml (layerstack_yaml : value)
  : result LayerStack :=
  ls <- py_get layerstack_yaml "layers" ;;
  if negb (truthy ls)
  then throw (ValueError "Layerstack is missing layers.")
  else
    lsv <- py_item layerstack_yaml "layers" ;;
    items <- py_items lsv ;;
    built <- build_layers items [] EmptyString ;;
    resolved <- resolve_vias (snd built) (fst built) ;;
    ret (mkLayerStack resolved).

(** What the file system and the YAML parser answer for a path [fp]. *)
Record yaml_file : Type := mkYamlFile {
  fp : string;
  file_exists : bool;
  suffix : string;
  parsed : option value   (* [None]: reading or parsing raised *)
}.

(** [load_layerstack(fp)] *)
Definition load_layerstack (f : yaml_file) : result LayerStack :=
  py_assert (file_exists f) ("File " ++ fp f ++ " does not exist.") ;;;
  if negb (str_mem (suffix f) _LAYERSTACK_FILE_EXTENSIONS)
  then throw (ValueError ("Unsupported file extension: " ++ suffix f))
  else
    match parsed f with
    | None =>
        throw (ValueError ("Could not load layerstack from " ++ fp f ++ "."))
    | Some layerstack_yaml => load_layerstack_yaml layerstack_yaml
    end.

Definition _LAYOUT_FILE_EXTENSIONS : list string :=
  [".oas"; ".oasis"; ".gds"; ".gdsii"].

(** What the file system answers for the resolved path of a layout file. *)
Record layout_file : Type := mkLayoutFile {
  lf_fp : string;
  lf_exists : bool;
  lf_suffix : string
}.

Section Readers.
(** [gdstk.Library] and the two readers [gdstk.read_oas], [gdstk.read_gds]. *)
Variable library : Type.
Variable read_oas : string -> result library.
Variable read_gds : string -> result library.

(** [load_layout(fp)] *)
Definition load_layout (f : layout_file) : result library :=
  let ext := lf_suffix f in
  py_assert (lf_exists f) ("File " ++ lf_fp f ++ " does not exist.") ;;;
  if str_mem ext (firstn 2 _LAYOUT_FILE_EXTENSIONS)
  then read_oas (lf_fp f)
  else if str_mem ext (skipn 2 _LAYOUT_FILE_EXTENSIONS)
  then read_gds (lf_fp f)
  else throw (ValueError ("Unsupported file extension: " ++ ext)).
End Readers.

End Loader.
Export Loader.

(* ================================================================== *)
(** ** render_to_mesh                                                   *)
(* ================================================================== *)

Module Render.
Import Geometry.

Definition _OUT_FILE_EXTENSIONS : list string :=
  [".gltf"; ".glb"; ".obj"; ".stl"; ".ply"].

(** A ring as returned in [poly.points]. *)
Definition polygon : Type := list point.

(** A [gdstk.Cell] as the renderer uses it: its name, its area and the
    polygon query by layer and datatype. *)
Record Cell : Type := mkCell {
  cell_name : string;
  area : Z;
  get_polygons : lydt_key -> result (list polygon)
}.

(** A [gdstk.Library]. *)
Record Library : Type := mkLibrary {
  cells : list Cell
}.

(** The observable actions of a render: the calls into the collaborating
    libraries, in program order.  [EvWarn] is a message handed to the
    warnings or logging machinery. *)
Inductive event : Type :=
| EvWarn (msg : string)
| EvScene (id : string)
| EvGetPolygons (cell : string) (key : lydt_key)
| EvPolygon (shell holes : list point)
| EvExtrude (height zbot : value)
| EvAddGeometry (scene_id node_name : string)
| EvExport (out : string).

(** Computations that may raise and that extend the trace of actions. *)
Definition M (A : Type) : Type := list event -> result A * list event.

#[export] Instance M_monad : Monad M := {
  ret := fun A a t => (Ok a, t);
  bind := fun A B c k t =>
            match c t with
            | (Ok a, t') => k a t'
            | (Raise e, t') => (Raise e, t')
            end;
  throw := fun A e t => (Raise e, t)
}.

Definition emit (e : event) : M unit := fun t => (Ok tt, (t ++ [e])%list).

Definition lift (A : Type) (r : result A) : M A := fun t => (r, t).

(** [key(item) > key(best)] decides replacement, so the first maximal
    element wins. *)
Fixpoint max_from (best : Cell) (rest : list Cell) : Cell :=
  match rest with
  | [] => best
  | c :: rest' =>
      if area c >? area best then max_from c rest' else max_from best rest'
  end.

(** [max(layout.cells, key=lambda cell: cell.area())] *)
Definition max_area_cell (cs : list Cell) : result Cell :=
  match cs with
  | [] => Raise (ValueError "max() arg is an empty sequence")
  | c :: rest => Ok (max_from c rest)
  end.

(** [layout[topcell]] *)
Fixpoint cell_by_name (nm : string) (cs : list Cell) : result Cell :=
  match cs with
  | [] => Raise KeyError
  | c :: cs' =>
      if (cell_name c =? nm)%string then Ok c else cell_by_name nm cs'
  end.

(** [topcell not in [cell.name for cell in layout.cells]] *)
Definition topcell_absent (topcell : option string) (cs : list Cell) : bool :=
  match topcell with
  | None => true
  | Some nm => negb (str_mem nm (map cell_name cs))
  end.

(** Lines 182-187.  In the absent branch the statement
    [Warning(f"Topcell ... not found ...")] builds an exception object and
    drops it: nothing is raised and nothing is handed to the warnings
    machinery, so the branch performs no action. *)
Definition select_topcell (layout : Library) (topcell : option string)
  : M Cell :=
  tcell <- lift (max_area_cell (cells layout)) ;;
  if topcell_absent topcell (cells layout)
  then ret tcell
  else
    match topcell with
    | Some nm => lift (cell_by_name nm (cells layout))
    | None => ret tcell
    end.

(** [if out:] *)
Definition out_given (out : option string) : option string :=
  match out with
  | Some s => if (s =? EmptyString)%string then None else Some s
  | None => None
  end.

(** Colours of one layer by polygon index, [Dict[int, colour]]. *)
Definition layer_cmap : Type := list (nat * value).

Fixpoint cmap_get (id : nat) (c : layer_cmap) : result value :=
  match c with
  | [] => Raise KeyError
  | (i, v) :: c' => if Nat.eqb i id then Ok v else cmap_get id c'
  end.

Fixpoint cmap_set (id : nat) (v : value) (c : layer_cmap) : layer_cmap :=
  match c with
  | [] => [(id, v)]
  | (i, w) :: c' =>
      if Nat.eqb i id then (i, v) :: c' else (i, w) :: cmap_set id v c'
  end.

Definition color_map : Type := list (lydt_key * layer_cmap).

(** [layerstack[key]] followed by an attribute access. *)
Definition stack_layer (layerstack : LayerStack) (key : lydt_key)
  : result Layer :=
  match getitem layerstack key with
  | Some l => Ok l
  | None => Raise AttributeError
  end.

(** [layerstack[key].metadata.material.rgba] *)
Definition layer_rgba (layerstack : LayerStack) (key : lydt_key)
  : result value :=
  l <- stack_layer layerstack key ;;
  match metadata l with
  | Some m => Ok (rgba (material m))
  | None => Raise AttributeError
  end.

(** Lines 198-201: [for id, poly in enumerate(layer_polys)]. *)
Fixpoint default_layer_cmap (layerstack : LayerStack) (key : lydt_key)
    (id : nat) (polys : list polygon) (acc : layer_cmap) : result layer_cmap :=
  match polys with
  | [] => ret acc
  | _ :: polys' =>
      c <- layer_rgba layerstack key ;;
      default_layer_cmap layerstack key (S id) polys' (cmap_set id c acc)
  end.

(** Lines 194-202. *)
Fixpoint default_cmap (layerstack : LayerStack) (tcell : Cell)
    (ks : list lydt_key) (cmap : color_map) : M color_map :=
  match ks with
  | [] => ret cmap
  | key :: ks' =>
      emit (EvGetPolygons (cell_name tcell) key) ;;;
      layer_polys <- lift (get_polygons tcell key) ;;
      lc <- lift (default_layer_cmap layerstack key 0 layer_polys []) ;;
      default_cmap layerstack tcell ks' (dict_set key lc cmap)
  end.

(** [f"{layer},{datatype}"] and the two three-part identifiers. *)
Definition layer_id (key : lydt_key) : string :=
  str_of_atom (fst key) ++ "," ++ str_of_atom (snd key).

Definition layer_scene_id (key : lydt_key) (layer_name : string) : string :=
  layer_id key ++ "," ++ layer_name.

Definition poly_id (key : lydt_key) (id : nat) : string :=
  layer_id key ++ "," ++ str_of_Z (Z.of_nat id).

Section Collaborators.

(** [Path(out).suffix] *)
Variable path_suffix : string -> string.

(** [trimesh.Trimesh] and the extrusion
    [creation.extrude_polygon(Polygon(shell=shell, holes=holes), height,
       transform=transformations.translation_matrix([0, 0, zbot]))]. *)
Variable mesh : Type.
Variable extrude_polygon :
  list point -> list point -> value -> value -> result mesh.

(** A geometry node of a layer scene. *)
Record node : Type := mkNode {
  node_name : string;
  node_id : string;
  geometry : mesh;
  face_colors : value
}.

(** The [Scene] built for one layer. *)
Record LayerScene : Type := mkLayerScene {
  ls_base_frame : string;
  ls_id : string;
  ls_nodes : list node
}.

(** A layer scene added to the canvas under a node name. *)
Record child : Type := mkChild {
  child_name : string;
  child_id : string;
  child_scene : LayerScene
}.

(** The canvas. *)
Record Scene : Type := mkScene {
  base_frame : string;
  scene_id : string;
  children : list child
}.

(** [canvas.export(out)] *)
Variable scene_export : Scene -> string -> result unit.

(** Lines 220-258: the loop over [enumerate(layer_polys)]. *)
Fixpoint render_polys (key : lydt_key) (zbot height : value)
    (cmap : color_map) (id : nat) (polys : list polygon)
    (layer_canvas : LayerScene) : M LayerScene :=
  match polys with
  | [] => ret layer_canvas
  | vertices :: polys' =>
      let sh := shell vertices in
      let ho := holes vertices in
      emit (EvPolygon sh ho) ;;;
      emit (EvExtrude height zbot) ;;;
      poly3D <- lift (extrude_polygon sh ho height zbot) ;;
      colour <- lift (match dict_get key cmap with
                      | Some lc => cmap_get id lc
                      | None => Raise KeyError
                      end) ;;
      emit (EvAddGeometry (ls_id layer_canvas) (poly_id key id)) ;;;
      render_polys key zbot height cmap (S id) polys'
        (mkLayerScene (ls_base_frame layer_canvas) (ls_id layer_canvas)
           (ls_nodes layer_canvas
              ++ [mkNode (poly_id key id) (poly_id key id) poly3D colour])%list)
  end.

(** Lines 205-259: one iteration of the loop over the keys of the stack. *)
Definition render_layer (layerstack : LayerStack) (tcell : Cell)
    (cmap : color_map) (canvas : Scene) (key : lydt_key) : M Scene :=
  emit (EvGetPolygons (cell_name tcell) key) ;;;
  layer_polys <- lift (get_polygons tcell key) ;;
  l <- lift (stack_layer layerstack key) ;;
  let layer_name := name l in
  emit (EvScene (layer_scene_id key layer_name)) ;;;
  let layer_canvas :=
    mkLayerScene (cell_name tcell) (layer_scene_id key layer_name) [] in
  p <- lift (props_of l) ;;
  py_assert (negb (is_none (zh p)))
    ("Layer " ++ layer_id key ++ " is missing property zh.") ;;;
  py_assert (negb (is_none (th p)))
    ("Layer " ++ layer_id key ++ " is missing property th.") ;;;
  let zbot := zh p in
  let height := th p in
  layer_canvas' <- render_polys key zbot height cmap 0 layer_polys
                     layer_canvas ;;
  emit (EvAddGeometry (scene_id canvas) (layer_id key)) ;;;
  ret (mkScene (base_frame canvas) (scene_id canvas)
         (children canvas
            ++ [mkChild (layer_id key) (layer_id key) layer_canvas'])%list).

Fixpoint render_layers (layerstack : LayerStack) (tcell : Cell)
    (cmap : color_map) (ks : list lydt_key) (canvas : Scene) : M Scene :=
  match ks with
  | [] => ret canvas
  | key :: ks' =>
      canvas' <- render_layer layerstack tcell cmap canvas key ;;
      render_layers layerstack tcell cmap ks' canvas'
  end.

(** [render_to_mesh(layout, layerstack, topcell, out, cmap)] *)
Definition render_to_mesh (layout : Library) (layerstack : LayerStack)
    (topcell : option string) (out : option string)
    (cmap : option color_map) : M Scene :=
  match out_given out with
  | Some o =>
      py_assert (str_mem (path_suffix o) _OUT_FILE_EXTENSIONS)
        ("Unsupported output file format: " ++ path_suffix o)
  | None => ret tt
  end ;;;
  tcell <- select_topcell layout topcell ;;
  emit (EvScene (cell_name tcell)) ;;;
  let canvas := mkScene (cell_name tcell) (cell_name tcell) [] in
  cmap' <- match cmap with
           | None =>
               default_cmap layerstack tcell
                 (dict_keys (layers layerstack)) []
           | Some c => ret c
           end ;;
  canvas' <- render_layers layerstack tcell cmap'
               (dict_keys (layers layerstack)) canvas ;;
  match out_given out with
  | Some o =>
      emit (EvExport o) ;;;
      lift (scene_export canvas' o)
  | None => ret tt
  end ;;;
  ret canvas'.




End Collaborators.

End Render.
Export Render.

(* ================================================================== *)
(** ** Predicates used to state the properties of the loader           *)
(* ================================================================== *)

Module Contracts.

(** The mapping [v] binds [k] to something other than [None]. *)
Definition has (v : value) (k : string) : bool :=
  match v with
  | VDict d =>
      match assoc k d with
      | Some x => negb (is_none x)
      | None => false
      end
  | _ => false
  end.

(** What [v] binds to [k] ([None] when there is nothing). *)
Definition field (v : value) (k : string) : value :=
  match v with
  | VDict d => match assoc k d with Some x => x | None => VNone end
  | _ => VNone
  end.

(** A named entry has metadata, a metadata type, properties, [ly] and
    [dt]. *)
Definition entry_complete (e : value) : bool :=
  has e "metadata" && has (field e "metadata") "type"
  && has e "properties"
  && has (field e "properties") "ly" && has (field e "properties") "dt".

(** The named layer entries of a configuration document. *)
Definition named_entries (doc : value) : list (string * value) :=
  match field doc "layers" with
  | VDict items => items
  | _ => []
  end.

(** [l'] is [l] up to [properties.zh] and [properties.th]. *)
Definition same_but_zh_th (l l' : Layer) : Prop :=
  name l' = name l /\ lydt l' = lydt l /\ metadata l' = metadata l
  /\ match properties l, properties l' with
     | Some p, Some p' =>
         ly p' = ly p /\ dt p' = dt p /\ top p' = top p /\ bot p' = bot p
         /\ mw p' = mw p /\ sqrres p' = sqrres p /\ dc_avgcd p' = dc_avgcd p
         /\ ac_rmscd p' = ac_rmscd p /\ sqrcap p' = sqrcap p
     | None, None => True
     | _, _ => False
     end.

(** What the via pass may do to a stored layer: touch nothing but [zh] and
    [th], and touch nothing at all on a layer that is not a cut. *)
Definition via_frame (l l' : Layer) : Prop :=
  same_but_zh_th l l' /\ (is_cut l = Ok false -> l' = l).

(** The equations of a resolved via [v] in the stored layers [vals]:
    [bot] and [top] name layers of [vals] (first match), all heights are
    numbers, [zh_via = bot.zh + bot.th] and [zh_via + th_via = top.zh]. *)
Definition via_equations (vals : list Layer) (v : Layer) : Prop :=
  exists (p : LayerProperties) (bot_l top_l : Layer)
         (bp tp : LayerProperties) (zb tb zt zv tv : Z),
    properties v = Some p
    /\ first_by_name (bot p) vals = Ok bot_l
    /\ first_by_name (top p) vals = Ok top_l
    /\ properties bot_l = Some bp /\ properties top_l = Some tp
    /\ zh bp = VInt zb /\ th bp = VInt tb /\ zh tp = VInt zt
    /\ zh p = VInt zv /\ th p = VInt tv
    /\ zv = zb + tb /\ zv + tv = zt.

(** The [bot] and [top] of [v] name layers of [vals] that are not cuts. *)
Definition plain_referents (vals : list Layer) (v : Layer) : Prop :=
  exists (p : LayerProperties) (bot_l top_l : Layer),
    properties v = Some p
    /\ first_by_name (bot p) vals = Ok bot_l
    /\ first_by_name (top p) vals = Ok top_l
    /\ is_cut bot_l = Ok false /\ is_cut top_l = Ok false.

End Contracts.
Export Contracts.

(* ================================================================== *)
(** ** Predicates on loaded stacks and rendered scenes                  *)
(* ================================================================== *)

Module Invariants.

(** What the first loop of the loader establishes for a layer stored under
    the key [k]: the layer carries [k] as its [lydt], [k] is the pair of its
    [ly] and [dt] properties, and its metadata has a truthy type. *)
Definition stored_ok (k : lydt_key) (l : Layer) : Prop :=
  lydt l = k
  /\ exists (m : LayerMetadata) (p : LayerProperties),
       metadata l = Some m /\ truthy (type m) = true
       /\ properties l = Some p
       /\ is_none (ly p) = false /\ is_none (dt p) = false
       /\ to_atom (ly p) = Ok (fst k) /\ to_atom (dt p) = Ok (snd k).

(** What the via pass establishes for a cut layer [v] of the stored layers
    [vals]: integer [zh] and [th], and truthy [top] and [bot] that name
    layers of [vals]. *)
Definition via_resolved (vals : list Layer) (v : Layer) : Prop :=
  exists (p : LayerProperties) (zv tv : Z) (bot_l top_l : Layer),
    properties v = Some p
    /\ zh p = VInt zv /\ th p = VInt tv
    /\ truthy (top p) = true /\ truthy (bot p) = true
    /\ first_by_name (bot p) vals = Ok bot_l
    /\ first_by_name (top p) vals = Ok top_l.

(** The [top] or [bot] of the cut layer [v] is missing or names no layer of
    [vals]. *)
Definition dangling_via (vals : list Layer) (v : Layer) : Prop :=
  exists p : LayerProperties,
    properties v = Some p
    /\ (truthy (top p) = false \/ truthy (bot p) = false
        \/ first_by_name (top p) vals = Raise IndexError
        \/ first_by_name (bot p) vals = Raise IndexError).

(** The nodes the polygon loop adds for the polygons [polys] of the layer
    [key], numbered from [id]: one node per polygon, in order, named
    "ly,dt,index", holding the extrusion of the polygon's shell and holes
    by [height] at [zbot] and the colour the map gives for that index. *)
Fixpoint poly_nodes (mesh : Type)
    (extrude_polygon :
       list Geometry.point -> list Geometry.point -> value -> value
       -> result mesh)
    (key : lydt_key) (zbot height : value) (cmap : color_map) (id : nat)
    (polys : list polygon) (nodes : list (node mesh)) : Prop :=
  match polys, nodes with
  | [], [] => True
  | vertices :: polys', nd :: nodes' =>
      node_name nd = poly_id key id
      /\ node_id nd = poly_id key id
      /\ extrude_polygon (Geometry.shell vertices) (Geometry.holes vertices)
                         height zbot = Ok (geometry nd)
      /\ (exists lc, dict_get key cmap = Some lc
                     /\ cmap_get id lc = Ok (face_colors nd))
      /\ poly_nodes extrude_polygon key zbot height cmap (S id) polys' nodes'
  | _, _ => False
  end.

(** The child the layer loop adds to the canvas for the key [key]. *)
Definition child_ok (mesh : Type)
    (extrude_polygon :
       list Geometry.point -> list Geometry.point -> value -> value
       -> result mesh)
    (layerstack : LayerStack) (tcell : Cell) (cmap : color_map)
    (key : lydt_key) (c : child mesh) : Prop :=
  child_name c = layer_id key
  /\ child_id c = layer_id key
  /\ exists (l : Layer) (p : LayerProperties) (polys : list polygon),
       getitem layerstack key = Some l
       /\ properties l = Some p
       /\ is_none (zh p) = false /\ is_none (th p) = false
       /\ get_polygons tcell key = Ok polys
       /\ ls_base_frame (child_scene c) = cell_name tcell
       /\ ls_id (child_scene c) = layer_scene_id key (name l)
       /\ poly_nodes extrude_polygon key (zh p) (th p) cmap 0 polys
                     (ls_nodes (child_scene c)).


Definition not_export (e : event) : Prop :=
  match e with EvExport _ => False | _ => True end.

End Invariants.
Export Invariants.

(* ================================================================== *)
(** ** Concrete inputs used below                                       *)
(* ================================================================== *)

Module Examples.
Import Geometry.

(** The square of the specification, traversed (0,0),(1,0),(1,1),(0,1). *)
Definition square_ccw : list point := [(0, 0); (1, 0); (1, 1); (0, 1)].

(** The same square traversed the other way round. *)
Definition square_cw : list point := [(0, 0); (0, 1); (1, 1); (1, 0)].

(** Three cells without polygons; B and C tie for the largest area. *)
Definition no_polygons : lydt_key -> result (list polygon) :=
  fun _ => Ok [].

Definition cell_a : Cell := mkCell "A" 4 no_polygons.
Definition cell_b : Cell := mkCell "B" 9 no_polygons.
Definition cell_c : Cell := mkCell "C" 9 no_polygons.

Definition lib_abc : Library := mkLibrary [cell_a; cell_b; cell_c].

Definition empty_stack : LayerStack := mkLayerStack [].

(** Stand-ins for the collaborating libraries: the text from the last dot
    on as path suffix, a mesh that only remembers its inputs, and an export
    that succeeds. *)
Fixpoint suffix_of (s : string) : string :=
  match s with
  | EmptyString => EmptyString
  | String c s' =>
      match suffix_of s' with
      | EmptyString => if Ascii.eqb c "."%char then s else EmptyString
      | suf => suf
      end
  end.

Definition prism : Type :=
  (list point * list point * value * value)%type.

Definition extrude_prism (sh ho : list point) (height zbot : value)
  : result prism :=
  Ok (sh, ho, height, zbot).

Definition export_ok (s : Scene prism) (out : string) : result unit := Ok tt.

(** A layer-stack document: two routing layers and the via between them. *)
Definition layer_entry (ty : string) (ly_v dt_v : Z)
    (extra : list (string * value)) : value :=
  VDict [("metadata",
          VDict [("type", VStr ty);
                 ("rgba", VList [VInt 0; VInt 255; VInt 0; VInt 255])]);
         ("properties",
          VDict (("ly", VInt ly_v) :: ("dt", VInt dt_v) :: extra))].

Definition doc_plain : value :=
  VDict [("layers", VDict [
    ("met1", layer_entry "routing" 2 0 [("zh", VInt 0); ("th", VInt 1)]);
    ("via1", layer_entry "cut" 3 0
               [("top", VStr "met2"); ("bot", VStr "met1")]);
    ("met2", layer_entry "routing" 4 0 [("zh", VInt 3); ("th", VInt 1)])])].


(** A document whose only entry has no [dt]. *)
Definition doc_no_dt : value :=
  VDict [("layers", VDict [
    ("met1", VDict [("metadata", VDict [("type", VStr "routing")]);
                    ("properties", VDict [("ly", VInt 2)])])])].

Definition file_of (doc : value) : yaml_file :=
  mkYamlFile "stack.yml" true ".yml" (Some doc).

(** The layers of [doc_plain] as stored by the first loop, before the via
    pass. *)
Definition plain_built : layer_dict :=
  match build_layers (named_entries doc_plain) [] EmptyString with
  | Ok r => fst r
  | Raise _ => []
  end.

(** The layers a successful load of [doc_plain] stores. *)
Definition plain_layers : layer_dict :=
  match load_layerstack_yaml doc_plain with
  | Ok s => layers s
  | Raise _ => []
  end.


(** A material as the loader builds it from [rgba: [0, 255, 0, 255]]. *)
Definition green : Material :=
  mkMaterial VNone (VList [VInt 0; VInt 255; VInt 0; VInt 255]).

Definition blue : Material :=
  mkMaterial VNone (VList [VInt 0; VInt 0; VInt 255; VInt 255]).

(** A stack document whose via names a layer that does not exist. *)
Definition doc_dangling : value :=
  VDict [("layers", VDict [
    ("met1", layer_entry "routing" 2 0 [("zh", VInt 0); ("th", VInt 1)]);
    ("via1", layer_entry "cut" 3 0
               [("top", VStr "met9"); ("bot", VStr "met1")])])].

(** A stack document whose via has no [top]; the via is not the last
    entry. *)
Definition doc_no_top : value :=
  VDict [("layers", VDict [
    ("via1", layer_entry "cut" 3 0 [("bot", VStr "met1")]);
    ("met1", layer_entry "routing" 2 0 [("zh", VInt 0); ("th", VInt 1)])])].

(** A stack document with two entries on the same (ly, dt). *)
Definition doc_twice : value :=
  VDict [("layers", VDict [
    ("old", layer_entry "routing" 2 0 [("zh", VInt 0); ("th", VInt 1)]);
    ("new", layer_entry "routing" 2 0 [("zh", VInt 5); ("th", VInt 2)])])].

Definition built_of (doc : value) : layer_dict :=
  match build_layers (named_entries doc) [] EmptyString with
  | Ok r => fst r
  | Raise _ => []
  end.

(** A cell with one square on layer (2, 0) and a triangle and a square on
    layer (4, 0). *)
Definition cell_x : Cell :=
  mkCell "X" 1
    (fun k =>
       if key_eqb k (AInt 2, AInt 0) then Ok [square_cw]
       else if key_eqb k (AInt 4, AInt 0)
            then Ok [[(0, 0); (0, 2); (2, 0)]; square_cw]
            else Ok []).

Definition lib_x : Library := mkLibrary [cell_x].

Definition plain_stack : LayerStack := mkLayerStack plain_layers.

End Examples.
Export Examples.

Unset Implicit Arguments.

(* ================================================================== *)
(** ** Properties of the turn classifier and of the assembly           *)
(* ================================================================== *)

Section ZipAdjacent.
Context {A : Type}.


Lemma zip_adjacent_length (l : list A) :
  List.length (combine (removelast l) (tl l)) = Nat.pred (List.length l).
Proof.
  induction l as [|a l IH]; [reflexivity|].
  destruct l as [|b l']; [reflexivity|].
  change (removelast (a :: b :: l')) with (a :: removelast (b :: l')).
  cbn [tl combine List.length] in *.
  rewrite IH; reflexivity.
Qed.
End ZipAdjacent.



Lemma filter_all_false {A : Type} (f : A -> bool) (l : list A) :
  forallb f l = true -> filter (fun x => negb (f x)) l = [].
Proof.
  induction l as [|a l IH]; cbn; [reflexivity|].
  intro H. apply andb_prop in H as [Ha Hl].
  rewrite Ha; cbn. auto.
Qed.

(** C1 as stated fails on the square of the specification: both turns of
    (0,0),(1,0),(1,1),(0,1) have cross product +1, so both edge pairs are
    classified clockwise; the shell is empty and the four corners end up in
    the hole sequence. *)
Lemma square_ccw_goes_to_holes :
  forallb Geometry.is_ccw_pair
    (Geometry.edge_pairs (Geometry.edges square_ccw)) = false
  /\ Geometry.shell square_ccw = []
  /\ Geometry.holes square_ccw = [(1, 1); (0, 1); (1, 0); (0, 0)]
  /\ ~ (List.length (Geometry.shell square_ccw) = 4%nat
        /\ Geometry.holes square_ccw = []).
Proof.
  repeat split; try reflexivity.
  intros [H _]. discriminate H.
Qed.

(** C1, amended.  A ring all of whose consecutive edge pairs are classified
    counter-clockwise (cross product <= 0) has an empty hole sequence; in
    particular the square traversed (0,0),(0,1),(1,1),(1,0) has its four
    corners as shell and no holes. *)
Theorem convex_ring_no_holes (vertices : list Geometry.point) :
  forallb Geometry.is_ccw_pair
    (Geometry.edge_pairs (Geometry.edges vertices)) = true ->
  Geometry.holes vertices = []
  /\ Geometry.shell square_cw = [(0, 0); (0, 1); (1, 1); (1, 0)]
  /\ Geometry.holes square_cw = [].
Proof.
  intro H. split; [|split; reflexivity].
  unfold Geometry.holes, Geometry.holes_of_pairs, Geometry.holes_edges.
  rewrite (filter_all_false _ _ H). reflexivity.
Qed.

Lemma convex_ring_no_holes_witness :
  forallb Geometry.is_ccw_pair
    (Geometry.edge_pairs (Geometry.edges square_cw)) = true
  /\ Geometry.holes square_cw = [].
Proof.
  split; [reflexivity|].
  exact (proj1 (convex_ring_no_holes square_cw eq_refl)).
Defined.

(* ================================================================== *)
(** ** LayerStack lookup                                                *)
(* ================================================================== *)

Lemma atom_eqb_eq (a b : atom) : atom_eqb a b = true <-> a = b.
Proof.
  destruct a, b; cbn; split; intro H; try discriminate; try reflexivity.
  - apply Z.eqb_eq in H; congruence.
  - inversion H; apply Z.eqb_refl.
  - apply String.eqb_eq in H; congruence.
  - inversion H; apply String.eqb_refl.
Qed.

Lemma key_eqb_eq (k1 k2 : lydt_key) : key_eqb k1 k2 = true <-> k1 = k2.
Proof.
  destruct k1 as [a1 b1], k2 as [a2 b2]; unfold key_eqb; cbn [fst snd].
  rewrite andb_true_iff, !atom_eqb_eq. split.
  - intros [-> ->]; reflexivity.
  - intro H; inversion H; auto.
Qed.

Lemma key_eqb_refl (k : lydt_key) : key_eqb k k = true.
Proof. apply key_eqb_eq; reflexivity. Qed.

Lemma key_eqb_neq (k1 k2 : lydt_key) : key_eqb k1 k2 = false <-> k1 <> k2.
Proof.
  rewrite <- key_eqb_eq. destruct (key_eqb k1 k2); split; congruence.
Qed.

Section DictFacts.
Context {A : Type}.
Implicit Types (d : list (lydt_key * A)) (key : lydt_key).

Lemma dict_get_Some_In d key v :
  dict_get key d = Some v -> In (key, v) d.
Proof.
  induction d as [|[k l] d IH]; cbn; [discriminate|].
  destruct (key_eqb k key) eqn:E.
  - intro H; inversion H; subst. apply key_eqb_eq in E; subst. now left.
  - intro H; right; auto.
Qed.

Lemma dict_get_None d key :
  dict_get key d = None <-> ~ In key (dict_keys d).
Proof.
  induction d as [|[k l] d IH]; cbn.
  - tauto.
  - destruct (key_eqb k key) eqn:E.
    + apply key_eqb_eq in E; subst. split; [discriminate|].
      intro H; exfalso; apply H; now left.
    + apply key_eqb_neq in E. rewrite IH. tauto.
Qed.

Lemma dict_get_In_nodup d key v :
  NoDup (dict_keys d) -> In (key, v) d -> dict_get key d = Some v.
Proof.
  induction d as [|[k l] d IH]; cbn; [tauto|].
  intros Hnd [Heq|Hin].
  - inversion Heq; subst. now rewrite key_eqb_refl.
  - inversion Hnd as [|? ? Hnotin Hnd']; subst.
    destruct (key_eqb k key) eqn:E.
    + apply key_eqb_eq in E; subst. exfalso; apply Hnotin.
      change key with (fst (key, v)). now apply in_map.
    + auto.
Qed.

Lemma dict_set_keys key v d :
  dict_keys (dict_set key v d) =
  match dict_get key d with
  | Some _ => dict_keys d
  | None => (dict_keys d ++ [key])%list
  end.
Proof.
  induction d as [|[k l] d IH]; cbn; [reflexivity|].
  destruct (key_eqb k key) eqn:E; cbn; [reflexivity|].
  unfold dict_keys in IH. rewrite IH.
  destruct (dict_get key d); reflexivity.
Qed.

(** Assignment keeps the keys of a dict distinct. *)
Lemma dict_set_nodup key v d :
  NoDup (dict_keys d) -> NoDup (dict_keys (dict_set key v d)).
Proof.
  intro Hnd. rewrite dict_set_keys.
  destruct (dict_get key d) eqn:E; [exact Hnd|].
  apply dict_get_None in E.
  apply NoDup_app; repeat split; auto.
  - constructor; [intros []|constructor].
  - intros x Hx [Hk|[]]; subst; contradiction.
Qed.
End DictFacts.

(** C9.  Indexing a LayerStack never raises: it returns [None] exactly when
    the key is not a key of the stack, what it returns otherwise is stored
    under that key, and (the keys of a dict being distinct) every stored
    layer is returned under its key. *)
Theorem getitem_total (self : LayerStack) (key : lydt_key) :
  (getitem self key = None <-> ~ In key (dict_keys (layers self)))
  /\ (In key (dict_keys (layers self)) ->
      exists l, getitem self key = Some l /\ In (key, l) (layers self))
  /\ (forall l, NoDup (dict_keys (layers self)) ->
                In (key, l) (layers self) -> getitem self key = Some l).
Proof.
  unfold getitem. split; [apply dict_get_None|]. split.
  - intro Hin. destruct (dict_get key (layers self)) as [l|] eqn:E.
    + exists l; split; [reflexivity|]. now apply dict_get_Some_In.
    + apply dict_get_None in E. contradiction.
  - intros l Hnd Hin. now apply dict_get_In_nodup.
Qed.

(* ================================================================== *)
(** ** Traces of a render                                               *)
(* ================================================================== *)

Definition quiet_event (e : event) : Prop :=
  match e with EvWarn _ => False | _ => True end.

(** A computation is tidy when it only appends to the trace, what it
    appends and what it returns do not depend on the trace it starts from,
    and it never appends a warning. *)
Definition tidy {A : Type} (m : M A) : Prop :=
  exists (r : result A) (es : list event),
    (forall t, m t = (r, (t ++ es)%list)) /\ Forall quiet_event es.

Lemma tidy_ret {A : Type} (a : A) : tidy (ret a : M A).
Proof.
  exists (Ok a), []. split; [|constructor].
  intro t; cbn. now rewrite app_nil_r.
Qed.

Lemma tidy_throw {A : Type} (e : pyerr) : tidy (throw e : M A).
Proof.
  exists (Raise e), []. split; [|constructor].
  intro t; cbn. now rewrite app_nil_r.
Qed.

Lemma tidy_lift {A : Type} (r : result A) : tidy (lift r).
Proof.
  exists r, []. split; [|constructor].
  intro t; unfold lift. now rewrite app_nil_r.
Qed.

Lemma tidy_emit (e : event) : quiet_event e -> tidy (emit e).
Proof.
  intro H. exists (Ok tt), [e]. split; [reflexivity|].
  constructor; [exact H|constructor].
Qed.

Lemma tidy_assert (c : bool) (msg : string) : tidy (py_assert c msg : M unit).
Proof. destruct c; [apply tidy_ret|apply tidy_throw]. Qed.

Lemma tidy_bind {A B : Type} (m : M A) (k : A -> M B) :
  tidy m -> (forall a, tidy (k a)) -> tidy (bind m k).
Proof.
  intros (r & es & Hm & Hes) Hk.
  destruct r as [a|e].
  - destruct (Hk a) as (r' & es' & Hk' & Hes').
    exists r', (es ++ es')%list. split.
    + intro t; cbn. rewrite Hm, Hk'. now rewrite app_assoc.
    + apply Forall_app; auto.
  - exists (Raise e), es. split; [|exact Hes].
    intro t; cbn. now rewrite Hm.
Qed.

Ltac tidy_step :=
  first
    [ apply tidy_ret
    | apply tidy_throw
    | apply tidy_lift
    | apply tidy_assert
    | apply tidy_emit; exact I
    | apply tidy_bind; [|intro] ].

Lemma tidy_select_topcell (layout : Library) (topcell : option string) :
  tidy (select_topcell layout topcell).
Proof.
  unfold select_topcell. tidy_step; [tidy_step|].
  destruct (topcell_absent topcell (cells layout)); [tidy_step|].
  destruct topcell; tidy_step.
Qed.

Lemma tidy_default_cmap (layerstack : LayerStack) (tcell : Cell)
    (ks : list lydt_key) (cmap : color_map) :
  tidy (default_cmap layerstack tcell ks cmap).
Proof.
  revert cmap; induction ks as [|key ks IH]; intro cmap; cbn [default_cmap].
  - tidy_step.
  - repeat tidy_step. apply IH.
Qed.

Section RenderFacts.
Variable path_suffix : string -> string.
Variable mesh : Type.
Variable extrude_polygon :
  list Geometry.point -> list Geometry.point -> value -> value -> result mesh.
Variable scene_export : Scene mesh -> string -> result unit.

Local Abbreviation render_to_mesh' :=
  (render_to_mesh path_suffix extrude_polygon scene_export).

Lemma tidy_render_polys (key : lydt_key) (zbot height : value)
    (cmap : color_map) (polys : list polygon) :
  forall (id : nat) (layer_canvas : LayerScene mesh),
    tidy (render_polys extrude_polygon key zbot height cmap id polys
            layer_canvas).
Proof.
  induction polys as [|vertices polys IH]; intros id layer_canvas;
    cbn [render_polys].
  - tidy_step.
  - repeat tidy_step. apply IH.
Qed.

Lemma tidy_render_layer (layerstack : LayerStack) (tcell : Cell)
    (cmap : color_map) (canvas : Scene mesh) (key : lydt_key) :
  tidy (render_layer extrude_polygon layerstack tcell cmap canvas key).
Proof.
  unfold render_layer.
  repeat first [apply tidy_render_polys | tidy_step].
Qed.

Lemma tidy_render_layers (layerstack : LayerStack) (tcell : Cell)
    (cmap : color_map) (ks : list lydt_key) :
  forall canvas : Scene mesh,
    tidy (render_layers extrude_polygon layerstack tcell cmap ks canvas).
Proof.
  induction ks as [|key ks IH]; intro canvas; cbn [render_layers].
  - tidy_step.
  - tidy_step; [apply tidy_render_layer|apply IH].
Qed.

Lemma tidy_render_to_mesh (layout : Library) (layerstack : LayerStack)
    (topcell out : option string) (cmap : option color_map) :
  tidy (render_to_mesh' layout layerstack topcell out cmap).
Proof.
  unfold render_to_mesh.
  tidy_step; [destruct (out_given out); tidy_step|].
  tidy_step; [apply tidy_select_topcell|].
  tidy_step; [tidy_step|].
  tidy_step; [destruct cmap; [tidy_step|apply tidy_default_cmap]|].
  tidy_step; [apply tidy_render_layers|].
  tidy_step; [|tidy_step].
  destruct (out_given out); repeat tidy_step.
Qed.

(** No run of [render_to_mesh] hands a message to the warnings machinery. *)
Lemma render_to_mesh_never_warns (layout : Library) (layerstack : LayerStack)
    (topcell out : option string) (cmap : option color_map)
    (t : list event) (msg : string) :
  In (EvWarn msg) (snd (render_to_mesh' layout layerstack topcell out cmap t))
  -> In (EvWarn msg) t.
Proof.
  destruct (tidy_render_to_mesh layout layerstack topcell out cmap)
    as (r & es & Hrun & Hq).
  rewrite Hrun; cbn [snd]. intro Hin.
  apply in_app_or in Hin as [Hin|Hin]; [exact Hin|].
  rewrite Forall_forall in Hq. destruct (Hq _ Hin).
Qed.

Lemma str_mem_In (s : string) (l : list string) :
  str_mem s l = true <-> In s l.
Proof.
  unfold str_mem. rewrite existsb_exists. split.
  - intros (x & Hin & Heq). apply String.eqb_eq in Heq. now subst.
  - intro Hin. exists s. split; [exact Hin|apply String.eqb_refl].
Qed.

(** C5.  When an output path is given and its extension is not one of the
    supported formats, [render_to_mesh] raises the unsupported-format
    assertion with the trace untouched: no scene was created, no polygon was
    queried, classified, assembled or extruded, and no node was added. *)
Theorem unsupported_output_fails_first (layout : Library)
    (layerstack : LayerStack) (topcell out : option string)
    (cmap : option color_map) (o : string) (t : list event) :
  out_given out = Some o ->
  ~ In (path_suffix o) _OUT_FILE_EXTENSIONS ->
  render_to_mesh' layout layerstack topcell out cmap t =
  (Raise (AssertionError
            ("Unsupported output file format: " ++ path_suffix o)), t).
Proof.
  intros Hout Hext. unfold render_to_mesh. rewrite Hout.
  destruct (str_mem (path_suffix o) _OUT_FILE_EXTENSIONS) eqn:E.
  - apply str_mem_In in E. contradiction.
  - reflexivity.
Qed.


End RenderFacts.

Lemma unsupported_output_fails_first_witness :
  render_to_mesh suffix_of extrude_prism export_ok lib_abc empty_stack
    None (Some "out.svg") None [] =
  (Raise (AssertionError "Unsupported output file format: .svg"), []).
Proof.
  apply (unsupported_output_fails_first suffix_of prism extrude_prism
           export_ok lib_abc empty_stack None (Some "out.svg") None
           "out.svg" []).
  - reflexivity.
  - cbn. intuition discriminate.
Defined.

(* ================================================================== *)
(** ** Top-cell selection                                               *)
(* ================================================================== *)

(** [max] with a key keeps the first element of maximal key. *)
Lemma max_from_first_max (rest : list Cell) :
  forall (best : Cell) (pre mid : list Cell),
    (forall x, In x pre -> area x < area best) ->
    (forall x, In x mid -> area x <= area best) ->
    exists pre' post',
      (pre ++ best :: mid ++ rest)%list
      = (pre' ++ max_from best rest :: post')%list
      /\ (forall x, In x pre' -> area x < area (max_from best rest))
      /\ (forall x, In x post' -> area x <= area (max_from best rest)).
Proof.
  induction rest as [|c rest IH]; intros best pre mid Hpre Hmid;
    cbn [max_from].
  - exists pre, mid. rewrite app_nil_r. auto.
  - destruct (area c >? area best) eqn:E.
    + apply Z.gtb_lt in E.
      destruct (IH c (pre ++ best :: mid)%list []) as (p & q & Heq & Hp & Hq).
      * intros x Hx. apply in_app_or in Hx as [Hx|[Hx|Hx]].
        -- specialize (Hpre x Hx). lia.
        -- subst. lia.
        -- specialize (Hmid x Hx). lia.
      * intros x [].
      * exists p, q. split; [|auto].
        rewrite <- Heq. cbn [app]. rewrite <- app_assoc. reflexivity.
    + assert (area c <= area best) as Hle.
      { destruct (Z.gtb_spec (area c) (area best)); [discriminate|lia]. }
      destruct (IH best pre (mid ++ [c])%list) as (p & q & Heq & Hp & Hq).
      * exact Hpre.
      * intros x Hx. apply in_app_or in Hx as [Hx|[Hx|[]]]; [auto|subst; lia].
      * exists p, q. split; [|auto].
        rewrite <- Heq. rewrite <- app_assoc. reflexivity.
Qed.

(** When the requested name is absent, the first cell of maximal area is
    selected, and the selection leaves no trace. *)
Lemma select_topcell_absent (layout : Library) (topcell : option string)
    (c : Cell) (rest : list Cell) (t : list event) :
  cells layout = c :: rest ->
  topcell_absent topcell (cells layout) = true ->
  select_topcell layout topcell t = (Ok (max_from c rest), t)
  /\ exists pre post,
       cells layout = (pre ++ max_from c rest :: post)%list
       /\ (forall x, In x pre -> area x < area (max_from c rest))
       /\ (forall x, In x post -> area x <= area (max_from c rest)).
Proof.
  intros Hcells Habs. split.
  - unfold select_topcell. rewrite Habs, Hcells. reflexivity.
  - rewrite Hcells.
    destruct (max_from_first_max rest c [] []) as (p & q & Heq & Hp & Hq);
      [intros x []|intros x []|].
    exists p, q. auto.
Qed.

Lemma cell_by_name_first (nm : string) (cs : list Cell) :
  str_mem nm (map cell_name cs) = true ->
  exists pre c post,
    cs = (pre ++ c :: post)%list /\ cell_name c = nm
    /\ (forall x, In x pre -> cell_name x <> nm)
    /\ cell_by_name nm cs = Ok c.
Proof.
  induction cs as [|c cs IH]; cbn; [discriminate|].
  destruct (cell_name c =? nm)%string eqn:E.
  - intros _. apply String.eqb_eq in E.
    exists [], c, cs. repeat split; auto; intros x [].
  - cbn. intro H. destruct (IH H) as (pre & c' & post & -> & Hn & Hpre & Hc).
    exists (c :: pre), c', post. repeat split; auto.
    intros x [Hx|Hx]; [subst; now apply String.eqb_neq|auto].
Qed.

(** When the requested name is present, the first cell of that name is
    selected. *)
Lemma select_topcell_present (layout : Library) (nm : string)
    (t : list event) :
  str_mem nm (map cell_name (cells layout)) = true ->
  exists pre c post,
    cells layout = (pre ++ c :: post)%list /\ cell_name c = nm
    /\ (forall x, In x pre -> cell_name x <> nm)
    /\ select_topcell layout (Some nm) t = (Ok c, t).
Proof.
  intro H. destruct (cell_by_name_first nm (cells layout) H)
    as (pre & c & post & Heq & Hn & Hpre & Hc).
  exists pre, c, post. repeat split; auto.
  unfold select_topcell, topcell_absent. rewrite H. cbn.
  destruct (cells layout) as [|c0 cs]; [destruct pre; discriminate|].
  cbn [max_area_cell lift]. unfold lift. now rewrite Hc.
Qed.

(** C4, at a layout whose cells are A (area 4), B (area 9) and C (area 9)
    and the absent name TOP: B, the first cell of maximal area, is selected,
    but no warning is emitted; the whole render leaves the creation of the
    root scene as its only action. *)
Theorem absent_topcell_emits_no_warning :
  select_topcell lib_abc (Some "TOP") [] = (Ok cell_b, [])
  /\ snd (render_to_mesh suffix_of extrude_prism export_ok lib_abc
            empty_stack (Some "TOP") None None []) = [EvScene "B"].
Proof. split; reflexivity. Qed.

(* ================================================================== *)
(** ** Validation of the named entries                                  *)
(* ================================================================== *)

Lemma bind_Ok {A B : Type} (c : result A) (k : A -> result B) (b : B) :
  bind c k = Ok b -> exists a, c = Ok a /\ k a = Ok b.
Proof.
  destruct c as [a|e]; cbn; [|discriminate].
  intro H. exists a. auto.
Qed.

Lemma py_assert_Ok (c : bool) (msg : string) (u : unit) :
  py_assert c msg = Ok u -> c = true.
Proof. destruct c; [reflexivity|discriminate]. Qed.

Lemma py_get_Ok (v : value) (k : string) (x : value) :
  py_get v k = Ok x -> x = field v k.
Proof.
  destruct v; cbn; try discriminate. intro H; inversion H; reflexivity.
Qed.

Lemma py_item_Ok (v : value) (k : string) (x : value) :
  py_item v k = Ok x -> x = field v k.
Proof.
  destruct v as [| | | |d]; cbn; try discriminate.
  destruct (assoc k d); [|discriminate]. intro H; inversion H; reflexivity.
Qed.

Lemma py_get_not_none (v : value) (k : string) (x : value) :
  py_get v k = Ok x -> is_none x = false -> has v k = true.
Proof.
  destruct v as [| | | |d]; cbn; try discriminate.
  destruct (assoc k d) as [y|]; intros H Hn; inversion H; subst.
  - now rewrite Hn.
  - discriminate.
Qed.

Lemma truthy_not_none (x : value) : truthy x = true -> is_none x = false.
Proof. destruct x; [discriminate|reflexivity..]. Qed.

Ltac bind_inv H x Hx :=
  apply bind_Ok in H as (x & Hx & H); cbv beta in H.

Lemma build_metadata_Ok (layerkey : string) (e : value) (m : LayerMetadata) :
  build_metadata layerkey e = Ok m -> has (field e "metadata") "type" = true.
Proof.
  unfold build_metadata. intro H.
  bind_inv H md Hmd. apply py_item_Ok in Hmd. subst md.
  bind_inv H rg Hrg. bind_inv H tx Htx. cbv zeta in H.
  bind_inv H ty Hty. bind_inv H u Hu. apply py_assert_Ok in Hu.
  apply (py_get_not_none _ _ _ Hty). now apply truthy_not_none.
Qed.

(** A named entry that passes its loop iteration is complete. *)
Lemma build_layer_Ok (layerkey : string) (e : value) (l : Layer) :
  build_layer layerkey e = Ok l -> entry_complete e = true.
Proof.
  unfold build_layer, entry_complete. intro H.
  bind_inv H md Hmd. bind_inv H u Hu. apply py_assert_Ok in Hu.
  pose proof (py_get_not_none _ _ _ Hmd (truthy_not_none _ Hu)) as Hm.
  bind_inv H md' Hmd'. rewrite Hmd in Hmd'. inversion Hmd'; subst md'.
  rewrite Hu in H. bind_inv H mo Hmo. bind_inv Hmo m Hm'.
  apply build_metadata_Ok in Hm'.
  bind_inv H pr Hpr. bind_inv H u' Hu'. apply py_assert_Ok in Hu'.
  pose proof (py_get_not_none _ _ _ Hpr (truthy_not_none _ Hu')) as Hp.
  bind_inv H props Hprops. apply py_item_Ok in Hprops. subst props.
  bind_inv H f_ly Hly. bind_inv H f_dt Hdt. cbv zeta in H.
  destruct (existsb is_none [f_ly; f_dt]) eqn:Ex; [discriminate|].
  cbn in Ex. apply orb_false_elim in Ex as [Ely Ex].
  apply orb_false_elim in Ex as [Edt _].
  rewrite Hm, Hm', Hp.
  rewrite (py_get_not_none _ _ _ Hly Ely), (py_get_not_none _ _ _ Hdt Edt).
  reflexivity.
Qed.

(** An incomplete entry makes its loop iteration raise. *)
Lemma build_layer_incomplete (layerkey : string) (e : value) :
  entry_complete e = false -> exists err, build_layer layerkey e = Raise err.
Proof.
  intro H. destruct (build_layer layerkey e) as [l|err] eqn:E.
  - apply build_layer_Ok in E. congruence.
  - exists err; reflexivity.
Qed.

Lemma build_layers_incomplete (items : list (string * value))
    (k : string) (e : value) :
  In (k, e) items -> entry_complete e = false ->
  forall d layerkey, exists err, build_layers items d layerkey = Raise err.
Proof.
  intros Hin Hinc.
  induction items as [|[k0 e0] items IH]; [destruct Hin|].
  intros d layerkey. cbn [build_layers].
  destruct (build_layer k0 e0) as [l|err] eqn:E; cbn.
  - destruct Hin as [Heq|Hin].
    + inversion Heq; subst.
      destruct (build_layer_incomplete k e Hinc) as (err & Herr). congruence.
    + apply IH; exact Hin.
  - eexists; reflexivity.
Qed.

Lemma load_layerstack_yaml_incomplete (doc : value) (k : string)
    (e : value) :
  In (k, e) (named_entries doc) -> entry_complete e = false ->
  exists err, load_layerstack_yaml doc = Raise err.
Proof.
  unfold named_entries, field. intros Hin Hinc.
  destruct doc as [| | | |d]; try destruct Hin.
  destruct (assoc "layers" d) as [ls|] eqn:El; [|destruct Hin].
  destruct ls as [| | | |items]; try destruct Hin.
  destruct items as [|it items]; [destruct Hin|].
  destruct (build_layers_incomplete (it :: items) k e Hin Hinc []
              EmptyString) as (err & Herr).
  unfold load_layerstack_yaml, py_get, py_item, py_items. rewrite El.
  cbn [bind result_monad truthy negb]. rewrite Herr.
  eexists; reflexivity.
Qed.

(** C6.  A configuration document with a named entry that lacks metadata,
    a metadata type, properties, [ly] or [dt] makes [load_layerstack]
    raise: no LayerStack is returned. *)
Theorem load_layerstack_rejects_incomplete (f : yaml_file) (doc : value)
    (k : string) (e : value) :
  parsed f = Some doc ->
  In (k, e) (named_entries doc) ->
  entry_complete e = false ->
  exists err, load_layerstack f = Raise err.
Proof.
  intros Hp Hin Hinc. unfold load_layerstack, py_assert. rewrite Hp.
  destruct (file_exists f); cbn [bind result_monad throw ret];
    [|eexists; reflexivity].
  destruct (str_mem (suffix f) _LAYERSTACK_FILE_EXTENSIONS);
    cbn [negb throw result_monad]; [|eexists; reflexivity].
  exact (load_layerstack_yaml_incomplete doc k e Hin Hinc).
Qed.

Lemma load_layerstack_rejects_incomplete_witness :
  exists err, load_layerstack (file_of doc_no_dt) = Raise err.
Proof.
  apply (load_layerstack_rejects_incomplete (file_of doc_no_dt) doc_no_dt
           "met1"
           (VDict [("metadata", VDict [("type", VStr "routing")]);
                   ("properties", VDict [("ly", VInt 2)])])).
  - reflexivity.
  - cbn. left; reflexivity.
  - reflexivity.
Defined.

(* ================================================================== *)
(** ** The via-resolution pass                                          *)
(* ================================================================== *)

Lemma is_cut_metadata (l l' : Layer) :
  metadata l' = metadata l -> is_cut l' = is_cut l.
Proof. unfold is_cut. now intros ->. Qed.

Lemma same_but_zh_th_refl (l : Layer) : same_but_zh_th l l.
Proof.
  unfold same_but_zh_th. repeat split.
  destruct (properties l); [repeat split|exact I].
Qed.

Lemma same_but_zh_th_trans (l1 l2 l3 : Layer) :
  same_but_zh_th l1 l2 -> same_but_zh_th l2 l3 -> same_but_zh_th l1 l3.
Proof.
  unfold same_but_zh_th.
  intros (Hn & Hk & Hm & Hp) (Hn' & Hk' & Hm' & Hp').
  repeat split; try congruence.
  destruct (properties l1), (properties l2), (properties l3);
    try contradiction; try exact I.
  intuition congruence.
Qed.

Lemma via_frame_refl (l : Layer) : via_frame l l.
Proof. split; [apply same_but_zh_th_refl|reflexivity]. Qed.

Lemma via_frame_is_cut (l l' : Layer) : via_frame l l' -> is_cut l' = is_cut l.
Proof. intros [(_ & _ & Hm & _) _]. now apply is_cut_metadata. Qed.

Lemma via_frame_trans (l1 l2 l3 : Layer) :
  via_frame l1 l2 -> via_frame l2 l3 -> via_frame l1 l3.
Proof.
  intros H12 H23. pose proof (via_frame_is_cut _ _ H12) as Hc.
  destruct H12 as [S12 U12], H23 as [S23 U23]. split.
  - eapply same_but_zh_th_trans; eauto.
  - intro Hcut. rewrite (U12 Hcut) in *. apply U23. congruence.
Qed.

Section Forall2Facts.
Context {A B : Type} (R : A -> B -> Prop).

Lemma Forall2_nth_l (l : list A) (l' : list B) (i : nat) (a : A) :
  Forall2 R l l' -> nth_error l i = Some a ->
  exists b, nth_error l' i = Some b /\ R a b.
Proof.
  intro H; revert i; induction H as [|x y l l' Hxy _ IH]; intros i Hi.
  - destruct i; discriminate.
  - destruct i as [|i]; cbn in *.
    + inversion Hi; subst. eauto.
    + auto.
Qed.

End Forall2Facts.

Lemma Forall2_trans_frame (l1 l2 l3 : list Layer) :
  Forall2 via_frame l1 l2 -> Forall2 via_frame l2 l3 ->
  Forall2 via_frame l1 l3.
Proof.
  intro H; revert l3; induction H as [|x y l l' Hxy _ IH]; intros l3 H3.
  - inversion H3; constructor.
  - inversion H3; subst. constructor; [eapply via_frame_trans; eauto|auto].
Qed.

Lemma Forall2_refl_frame (l : list Layer) : Forall2 via_frame l l.
Proof. induction l; constructor; [apply via_frame_refl|assumption]. Qed.

Section StoreAt.
Variables (l' : Layer).

Lemma store_at_keys (i : nat) (d : layer_dict) :
  dict_keys (store_at i l' d) = dict_keys d.
Proof.
  revert i; induction d as [|[k x] d IH]; intros [|i]; cbn; try reflexivity.
  f_equal. apply IH.
Qed.

Lemma store_at_nth_same (i : nat) (d : layer_dict) (v : Layer) :
  nth_error (dict_values d) i = Some v ->
  nth_error (dict_values (store_at i l' d)) i = Some l'.
Proof.
  unfold dict_values.
  revert i; induction d as [|[k x] d IH]; intros [|i]; cbn;
    try discriminate; auto.
Qed.

Lemma store_at_nth_other (i j : nat) (d : layer_dict) :
  j <> i ->
  nth_error (dict_values (store_at i l' d)) j = nth_error (dict_values d) j.
Proof.
  revert i j; induction d as [|[k x] d IH]; intros [|i] [|j] Hne; cbn;
    try reflexivity; try congruence.
  apply IH. congruence.
Qed.

Lemma store_at_frame (i : nat) (d : layer_dict) (v : Layer) :
  nth_error (dict_values d) i = Some v -> via_frame v l' ->
  Forall2 via_frame (dict_values d) (dict_values (store_at i l' d)).
Proof.
  revert i; induction d as [|[k x] d IH]; intros [|i]; cbn;
    try discriminate.
  - intros H Hf; inversion H; subst.
    constructor; [exact Hf|apply Forall2_refl_frame].
  - intros H Hf. constructor; [apply via_frame_refl|]. now apply IH.
Qed.
End StoreAt.

(** What one iteration of the via loop reads and writes. *)
Lemma via_step_spec (layerkey : string) (d d' : layer_dict) (i : nat) :
  via_step layerkey d i = Ok d' ->
  exists (v : Layer) (p : LayerProperties) (bot_l top_l : Layer)
         (bp tp : LayerProperties) (zh' th' : value),
    nth_error (dict_values d) i = Some v
    /\ properties v = Some p
    /\ first_by_name (bot p) (dict_values d) = Ok bot_l
    /\ first_by_name (top p) (dict_values d) = Ok top_l
    /\ properties bot_l = Some bp /\ properties top_l = Some tp
    /\ py_add (zh bp) (th bp) = Ok zh'
    /\ py_sub (zh tp) zh' = Ok th'
    /\ d' = store_at i (with_zh_th v p zh' th') d.
Proof.
  unfold via_step. destruct (nth_error (dict_values d) i) as [v|] eqn:Ev;
    [|discriminate].
  intro H. bind_inv H p Hp. cbv zeta in H.
  bind_inv H u1 Hu1. bind_inv H u2 Hu2.
  bind_inv H top_l Htop. bind_inv H bot_l Hbot.
  bind_inv H bp Hbp. cbv zeta in H. bind_inv H tp Htp. cbv zeta in H.
  bind_inv H zh' Hzh. bind_inv H th' Hth.
  cbn in H. inversion H; subst d'.
  unfold props_of in Hp, Hbp, Htp.
  destruct (properties v) eqn:E1; [|discriminate].
  destruct (properties bot_l) eqn:E2; [|discriminate].
  destruct (properties top_l) eqn:E3; [|discriminate].
  inversion Hp; inversion Hbp; inversion Htp; subst.
  exists v, p, bot_l, top_l, bp, tp, zh', th'. repeat split; auto.
Qed.

Lemma with_zh_th_frame (v : Layer) (p : LayerProperties) (zh' th' : value) :
  properties v = Some p -> is_cut v = Ok true ->
  via_frame v (with_zh_th v p zh' th').
Proof.
  intros Hp Hc. split.
  - unfold same_but_zh_th, with_zh_th; cbn. rewrite Hp. repeat split.
  - congruence.
Qed.

(** The positions collected for the via loop are exactly the positions of
    the cut layers, each once. *)
Lemma via_positions_spec (vals : list Layer) :
  forall (n : nat) (ps : list nat),
    via_positions vals n = Ok ps ->
    NoDup ps
    /\ forall i, In i ps <->
         (n <= i)%nat
         /\ exists l, nth_error vals (i - n) = Some l /\ is_cut l = Ok true.
Proof.
  induction vals as [|l vals IH]; intros n ps H; cbn [via_positions] in H.
  - inversion H; subst. split; [constructor|].
    intro i; split; [intros []|].
    intros (_ & x & Hx & _). destruct (i - n)%nat; discriminate.
  - bind_inv H c Hc. bind_inv H ps' Hps. cbn in H. inversion H; subst ps.
    destruct (IH _ _ Hps) as [Hnd Hin].
    assert (forall i, In i ps' -> (S n <= i)%nat) as Hge
        by (intros i Hi; now apply Hin in Hi).
    split.
    + destruct c; [|exact Hnd]. constructor; [|exact Hnd].
      intro Hn. apply Hge in Hn. lia.
    + intro i. split.
      * intro Hi.
        assert (i = n /\ c = true \/ In i ps') as [[-> ->]|Hi'].
        { destruct c; [destruct Hi as [<-|Hi]|]; auto. }
        -- split; [lia|]. exists l. now rewrite Nat.sub_diag.
        -- apply Hin in Hi' as (Hle & x & Hx & Hcx).
           split; [lia|]. exists x. split; [|exact Hcx].
           replace (i - n)%nat with (S (i - S n)) by lia. exact Hx.
      * intros (Hle & x & Hx & Hcx).
        destruct (Nat.eq_dec i n) as [->|Hne].
        -- rewrite Nat.sub_diag in Hx. cbn in Hx. inversion Hx; subst x.
           rewrite Hcx in Hc. inversion Hc; subst c. now left.
        -- assert (In i ps') as Hi'.
           { apply Hin. split; [lia|]. exists x. split; [|exact Hcx].
             replace (i - n)%nat with (S (i - S n)) in Hx by lia. exact Hx. }
           destruct c; [now right|exact Hi'].
Qed.

(** Name lookup is stable under the changes the pass makes. *)
Lemma first_by_name_frame (nm : value) (vals vals' : list Layer) (l : Layer) :
  Forall2 via_frame vals vals' ->
  first_by_name nm vals = Ok l ->
  exists l', first_by_name nm vals' = Ok l' /\ via_frame l l'.
Proof.
  intro H; induction H as [|x y vals vals' Hxy _ IH]; cbn; [discriminate|].
  destruct Hxy as [(Hn & Hrest) Hu] eqn:E. rewrite Hn.
  destruct (py_eq_str nm (name x)).
  - intro Hl; inversion Hl; subst. exists y. split; [reflexivity|].
    split; [exact (conj Hn Hrest)|exact Hu].
  - exact IH.
Qed.

(** Every position of [ps] holds a cut layer of the store [d]. *)
Definition cut_positions (ps : list nat) (d : layer_dict) : Prop :=
  forall i, In i ps ->
    exists l, nth_error (dict_values d) i = Some l /\ is_cut l = Ok true.

Lemma cut_positions_frame (ps : list nat) (d d' : layer_dict) :
  Forall2 via_frame (dict_values d) (dict_values d') ->
  cut_positions ps d -> cut_positions ps d'.
Proof.
  intros HF Hc i Hi. destruct (Hc i Hi) as (l & Hl & Hcut).
  destruct (Forall2_nth_l _ _ _ _ _ HF Hl) as (l1 & Hl1 & Hf).
  exists l1. split; [exact Hl1|].
  rewrite (via_frame_is_cut _ _ Hf). exact Hcut.
Qed.

Lemma py_sub_Ok (a b r : value) :
  py_sub a b = Ok r ->
  exists x y, a = VInt x /\ b = VInt y /\ r = VInt (x - y).
Proof.
  destruct a, b; cbn; try discriminate.
  intro H; inversion H. eauto.
Qed.

Lemma py_add_int (a b : value) (z : Z) :
  py_add a b = Ok (VInt z) ->
  exists x y, a = VInt x /\ b = VInt y /\ z = x + y.
Proof.
  destruct a, b; cbn; try discriminate.
  intro H; inversion H. eauto.
Qed.

(** The via loop over distinct positions of cut layers: keys are kept,
    every stored layer changes within the frame, positions outside the loop
    are untouched, and a processed via whose [bot] and [top] name layers
    that are not cuts satisfies the via equations in the final store. *)
Lemma via_loop_spec (layerkey : string) (ps : list nat) :
  forall d d' : layer_dict,
    NoDup ps -> cut_positions ps d ->
    via_loop layerkey ps d = Ok d' ->
    dict_keys d' = dict_keys d
    /\ Forall2 via_frame (dict_values d) (dict_values d')
    /\ (forall j, ~ In j ps ->
          nth_error (dict_values d') j = nth_error (dict_values d) j)
    /\ (forall i v', In i ps -> nth_error (dict_values d') i = Some v' ->
          plain_referents (dict_values d') v' ->
          via_equations (dict_values d') v').
Proof.
  induction ps as [|i ps IH]; intros d d' Hnd Hcut H; cbn [via_loop] in H.
  - inversion H; subst d'. repeat split; auto.
    + apply Forall2_refl_frame.
    + intros i v' [].
  - bind_inv H d1 Hstep.
    inversion Hnd as [|? ? Hnotin Hnd']; subst.
    destruct (via_step_spec _ _ _ _ Hstep)
      as (v & p & bot_l & top_l & bp & tp & zh' & th'
          & Hv & Hp & Hbot & Htop & Hbp & Htp & Hadd & Hsub & Hd1).
    assert (is_cut v = Ok true) as Hvcut.
    { destruct (Hcut i (or_introl eq_refl)) as (l & Hl & Hc). congruence. }
    assert (Forall2 via_frame (dict_values d) (dict_values d1)) as HF1.
    { subst d1. apply (store_at_frame _ _ _ _ Hv).
      now apply with_zh_th_frame. }
    assert (cut_positions ps d1) as Hcut1.
    { apply (cut_positions_frame _ _ _ HF1).
      intros j Hj. apply Hcut. now right. }
    destruct (IH d1 d' Hnd' Hcut1 H) as (Hk & HF & Hout & Hres).
    assert (Forall2 via_frame (dict_values d) (dict_values d')) as HFall
        by (eapply Forall2_trans_frame; eauto).
    split; [|split; [exact HFall|split]].
    + rewrite Hk. subst d1. apply store_at_keys.
    + intros j Hj. rewrite Hout by (intro; apply Hj; now right).
      subst d1. apply store_at_nth_other. intro; apply Hj; now left.
    + intros k v' [<-|Hk'] Hv' Hplain; [|now apply (Hres k)].
      rewrite (Hout i Hnotin) in Hv'. subst d1.
      rewrite (store_at_nth_same _ _ _ _ Hv) in Hv'.
      inversion Hv'; subst v'; clear Hv'.
      destruct Hplain as (p2 & botF & topF & Hp2 & HbotF & HtopF & HcB & HcT).
      cbn in Hp2. inversion Hp2; subst p2; clear Hp2.
      cbn [set_zh_th bot top] in HbotF, HtopF.
      destruct (first_by_name_frame _ _ _ _ HFall Hbot) as (b' & Hb' & Hfb).
      destruct (first_by_name_frame _ _ _ _ HFall Htop) as (t' & Ht' & Hft).
      rewrite HbotF in Hb'. inversion Hb'; subst b'.
      rewrite HtopF in Ht'. inversion Ht'; subst t'.
      assert (botF = bot_l) as ->.
      { apply (proj2 Hfb). rewrite <- (via_frame_is_cut _ _ Hfb). exact HcB. }
      assert (topF = top_l) as ->.
      { apply (proj2 Hft). rewrite <- (via_frame_is_cut _ _ Hft). exact HcT. }
      destruct (py_sub_Ok _ _ _ Hsub) as (zt & zv & Ezt & Ezv & Eth).
      subst zh' th'.
      destruct (py_add_int _ _ _ Hadd) as (zb & tb & Ezb & Etb & Ezv).
      exists (set_zh_th p (VInt zv) (VInt (zt - zv))), bot_l, top_l, bp, tp,
        zb, tb, zt, zv, (zt - zv).
      cbn. repeat split; auto. lia.
Qed.

Lemma resolve_vias_preserves (layerkey : string) (d d' : layer_dict) :
  resolve_vias layerkey d = Ok d' ->
  dict_keys d' = dict_keys d
  /\ Forall2 via_frame (dict_values d) (dict_values d').
Proof.
  unfold resolve_vias. intro H. bind_inv H ps Hps.
  destruct (via_positions_spec _ _ _ Hps) as [Hnd Hin].
  assert (cut_positions ps d) as Hcut.
  { intros i Hi. apply Hin in Hi as (_ & l & Hl & Hc).
    rewrite Nat.sub_0_r in Hl. eauto. }
  destruct (via_loop_spec layerkey ps d d' Hnd Hcut H) as (Hk & HF & _).
  auto.
Qed.

(** C10.  When the via pass succeeds, the stack keeps its keys in order and
    every stored layer is related to what it was by [via_frame]: name, key,
    metadata and all properties other than [zh] and [th] are unchanged, and
    a layer whose metadata type is not "cut" is unchanged altogether. *)
Theorem resolve_vias_frame (layerkey : string) (d d' : layer_dict) :
  resolve_vias layerkey d = Ok d' ->
  dict_keys d' = dict_keys d
  /\ Forall2 via_frame (dict_values d) (dict_values d').
Proof. exact (resolve_vias_preserves layerkey d d'). Qed.

Lemma resolve_vias_frame_witness :
  resolve_vias "met2" plain_built = Ok plain_layers
  /\ dict_keys plain_layers = dict_keys plain_built
  /\ Forall2 via_frame (dict_values plain_built) (dict_values plain_layers).
Proof.
  split; [vm_compute; reflexivity|].
  apply (resolve_vias_frame "met2" plain_built plain_layers).
  vm_compute. reflexivity.
Defined.





(** The keys of a loaded stack are distinct. *)
Lemma build_layers_nodup (items : list (string * value)) :
  forall (d : layer_dict) (layerkey : string) (r : layer_dict * string),
    NoDup (dict_keys d) -> build_layers items d layerkey = Ok r ->
    NoDup (dict_keys (fst r)).
Proof.
  induction items as [|[k e] items IH]; intros d layerkey r Hnd H;
    cbn [build_layers] in H.
  - inversion H; subst. exact Hnd.
  - bind_inv H l Hl. apply (IH _ _ _ (dict_set_nodup (lydt l) l d Hnd) H).
Qed.

Lemma load_layerstack_yaml_nodup (doc : value) (s : LayerStack) :
  load_layerstack_yaml doc = Ok s -> NoDup (dict_keys (layers s)).
Proof.
  unfold load_layerstack_yaml. intro H.
  bind_inv H ls Hls. destruct (negb (truthy ls)); [discriminate|].
  bind_inv H lsv Hlsv. bind_inv H items Hitems. bind_inv H built Hbuilt.
  bind_inv H resolved Hres. cbn in H. inversion H; subst s.
  cbn [layers]. rewrite (proj1 (resolve_vias_preserves _ _ _ Hres)).
  exact (build_layers_nodup items [] EmptyString built (NoDup_nil _) Hbuilt).
Qed.

(* ================================================================== *)
(** ** Further properties of data.py                                    *)
(* ================================================================== *)

Section DictUpdates.
Context {A : Type}.
Implicit Types (d : list (lydt_key * A)) (key : lydt_key).

Lemma dict_get_set key key' (v : A) d :
  dict_get key' (dict_set key v d) =
  if key_eqb key key' then Some v else dict_get key' d.
Proof.
  induction d as [|[k l] d IH]; cbn.
  - destruct (key_eqb key key'); reflexivity.
  - destruct (key_eqb k key) eqn:E; cbn.
    + apply key_eqb_eq in E; subst k.
      destruct (key_eqb key key'); reflexivity.
    + destruct (key_eqb k key') eqn:E'; [|exact IH].
      apply key_eqb_eq in E'; subst key'.
      destruct (key_eqb key k) eqn:E2; [|reflexivity].
      apply key_eqb_eq in E2; subst key.
      rewrite key_eqb_refl in E. discriminate.
Qed.

Lemma dict_set_length key (v : A) d :
  List.length (dict_set key v d) =
  match dict_get key d with
  | Some _ => List.length d
  | None => S (List.length d)
  end.
Proof.
  induction d as [|[k l] d IH]; cbn; [reflexivity|].
  destruct (key_eqb k key); cbn; [reflexivity|].
  rewrite IH. destruct (dict_get key d); reflexivity.
Qed.

Lemma dict_del_absent key d :
  dict_get key d = None -> dict_del key d = Raise KeyError.
Proof.
  induction d as [|[k l] d IH]; cbn; [reflexivity|].
  destruct (key_eqb k key); [discriminate|].
  intro H. now rewrite (IH H).
Qed.

Lemma dict_del_present key d (v : A) :
  dict_get key d = Some v ->
  exists d',
    dict_del key d = Ok d'
    /\ S (List.length d') = List.length d
    /\ (forall key', key' <> key -> dict_get key' d' = dict_get key' d)
    /\ (NoDup (dict_keys d) -> dict_get key d' = None).
Proof.
  induction d as [|[k l] d IH]; cbn; [discriminate|].
  destruct (key_eqb k key) eqn:E.
  - intros _. apply key_eqb_eq in E; subst k.
    exists d. repeat split.
    + intros key' Hne. destruct (key_eqb key key') eqn:E'; [|reflexivity].
      apply key_eqb_eq in E'. congruence.
    + intro Hnd. inversion Hnd; subst. now apply dict_get_None.
  - intro H. destruct (IH H) as (d' & Hd & Hlen & Hother & Hgone).
    exists ((k, l) :: d'). rewrite Hd. cbn. repeat split.
    + now rewrite Hlen.
    + intros key' Hne. destruct (key_eqb k key'); [reflexivity|auto].
    + intro Hnd. inversion Hnd; subst. cbn [dict_get]. rewrite E. auto.
Qed.
End DictUpdates.

(** Assignment then lookup: [stack[k] = v] makes [stack[k]] return [v],
    leaves the answer for every other key as it was, and makes the stack
    one longer exactly when [k] was not a key. *)
Theorem setitem_getitem (self : LayerStack) (k k' : lydt_key) (v : Layer) :
  getitem (setitem self k v) k = Some v
  /\ (k' <> k -> getitem (setitem self k v) k' = getitem self k')
  /\ len (setitem self k v) =
     match getitem self k with
     | Some _ => len self
     | None => S (len self)
     end.
Proof.
  unfold getitem, setitem, len; cbn [layers]. repeat split.
  - rewrite dict_get_set. now rewrite key_eqb_refl.
  - intro Hne. rewrite dict_get_set.
    destruct (key_eqb k k') eqn:E; [|reflexivity].
    apply key_eqb_eq in E. congruence.
  - apply dict_set_length.
Qed.

(** Deletion: [del stack[k]] raises [KeyError] exactly when [k] is not a
    key; otherwise the stack gets one shorter, the other keys answer as
    before and (keys being distinct) [k] is no longer found. *)
Theorem delitem_spec (self : LayerStack) (k : lydt_key) :
  match delitem self k with
  | Ok self' =>
      getitem self k <> None
      /\ S (len self') = len self
      /\ (forall k', k' <> k -> getitem self' k' = getitem self k')
      /\ (NoDup (dict_keys (layers self)) -> getitem self' k = None)
  | Raise e => e = KeyError /\ getitem self k = None
  end.
Proof.
  unfold delitem, getitem, len.
  destruct (dict_get k (layers self)) as [v|] eqn:E.
  - destruct (dict_del_present _ _ _ E) as (d' & Hd & Hlen & Ho & Hg).
    rewrite Hd. cbn [layers]. repeat split; auto. discriminate.
  - rewrite (dict_del_absent _ _ E). auto.
Qed.

Lemma atoms_eqb_eq (xs ys : list atom) : atoms_eqb xs ys = true <-> xs = ys.
Proof.
  revert ys; induction xs as [|x xs IH]; intros [|y ys]; cbn;
    try (split; [discriminate|intro H; inversion H]); [tauto|].
  rewrite andb_true_iff, atom_eqb_eq, IH. split.
  - intros [-> ->]; reflexivity.
  - intro H; inversion H; auto.
Qed.

(** Equality of layers looks at [lydt] only: it is an equivalence relation
    on layers that holds exactly when the keys are equal, whatever the
    names, metadata and properties; a layer equals the tuple of its own key
    and no object of another kind; [!=] is the negation; and equal layers
    have equal hashes. *)
Theorem layer_eq_by_key (py_hash : list atom -> Z) (l1 l2 l3 : Layer) :
  (layer_eq l1 (OLayer l2) = true <-> lydt l1 = lydt l2)
  /\ layer_eq l1 (OLayer l1) = true
  /\ layer_eq l1 (OLayer l2) = layer_eq l2 (OLayer l1)
  /\ (layer_eq l1 (OLayer l2) = true -> layer_eq l2 (OLayer l3) = true ->
      layer_eq l1 (OLayer l3) = true)
  /\ (forall t, layer_eq l1 (OTuple t) = true <-> t = [fst (lydt l1);
                                                       snd (lydt l1)])
  /\ layer_eq l1 OOther = false
  /\ (forall o, layer_ne l1 o = negb (layer_eq l1 o))
  /\ (layer_eq l1 (OLayer l2) = true ->
      layer_hash py_hash l1 = layer_hash py_hash l2).
Proof.
  unfold layer_eq, layer_ne, layer_hash, tuple_of_key.
  split; [apply key_eqb_eq|].
  split; [apply key_eqb_refl|].
  split.
  { destruct (key_eqb (lydt l1) (lydt l2)) eqn:E.
    - apply key_eqb_eq in E. rewrite E. symmetry. apply key_eqb_refl.
    - symmetry. apply key_eqb_neq. apply key_eqb_neq in E. congruence. }
  split.
  { rewrite !key_eqb_eq. congruence. }
  split.
  { intro t. rewrite atoms_eqb_eq. split; congruence. }
  split; [reflexivity|].
  split; [reflexivity|].
  rewrite key_eqb_eq. now intros ->.
Qed.

(** [hexa] never returns: its format has four conversions and its right
    operand, [self.rgba], is a single object that is not a tuple, so the
    formatting raises [TypeError] whatever the material holds. *)
Theorem hexa_raises (m : Material) : hexa m = Raise TypeError.
Proof.
  unfold hexa, format_hex. destruct (rgba m) as [|z|s|l|d]; reflexivity.
Qed.

Lemma append_empty_r (s : string) : s ++ EmptyString = s.
Proof. induction s as [|c s IH]; cbn; [reflexivity|now rewrite IH]. Qed.

Lemma hex_of_ints (m : Material) (r g b : Z) (rest : list value) :
  rgba m = VList (VInt r :: VInt g :: VInt b :: rest) ->
  hex m = Ok ("#" ++ fmt_02x r ++ fmt_02x g ++ fmt_02x b).
Proof.
  unfold hex, rgb, format_hex. intros ->.
  cbn [firstn fmt_hex_fields]. rewrite append_empty_r. reflexivity.
Qed.

(** [hex] returns exactly when [rgba] is a list that starts with three
    integers, and then returns ["#"] followed by their three [%02x]
    renderings; in every other case it raises. *)
Theorem hex_spec (m : Material) (s : string) :
  hex m = Ok s <->
  exists (r g b : Z) (rest : list value),
    rgba m = VList (VInt r :: VInt g :: VInt b :: rest)
    /\ s = "#" ++ fmt_02x r ++ fmt_02x g ++ fmt_02x b.
Proof.
  unfold hex, rgb, format_hex. split.
  - destruct (rgba m) as [|z|t|l|d]; try discriminate.
    + destruct t as [|c1 [|c2 [|c3 t]]]; discriminate.
    + destruct l as [|[|r| | |] [|[|g| | |] [|[|b| | |] rest]]];
        try discriminate.
      cbn [firstn fmt_hex_fields]. rewrite append_empty_r.
      intro H; inversion H; subst. exists r, g, b, rest.
      split; reflexivity.
  - intros (r & g & b & rest & -> & ->).
    cbn [firstn fmt_hex_fields]. rewrite append_empty_r. reflexivity.
Qed.

Lemma in_byte_range (n : Z) :
  0 <= n <= 255 -> In n (map Z.of_nat (seq 0 256)).
Proof.
  intro H. rewrite <- (Z2Nat.id n) by lia.
  apply in_map. apply in_seq. lia.
Qed.

Lemma fmt_02x_byte_length (n : Z) :
  0 <= n <= 255 -> String.length (fmt_02x n) = 2%nat.
Proof.
  intro H. apply in_byte_range in H.
  assert (forallb (fun k => Nat.eqb (String.length (fmt_02x k)) 2)
            (map Z.of_nat (seq 0 256)) = true) as Hall
      by (vm_compute; reflexivity).
  rewrite forallb_forall in Hall. apply Nat.eqb_eq. now apply Hall.
Qed.

Lemma fmt_02x_byte_inj (a b : Z) :
  0 <= a <= 255 -> 0 <= b <= 255 -> fmt_02x a = fmt_02x b -> a = b.
Proof.
  intros Ha Hb Heq. apply in_byte_range in Ha, Hb.
  assert (forallb
            (fun x => forallb
               (fun y => implb (String.eqb (fmt_02x x) (fmt_02x y))
                               (x =? y))
               (map Z.of_nat (seq 0 256)))
            (map Z.of_nat (seq 0 256)) = true) as Hall
      by (vm_compute; reflexivity).
  rewrite forallb_forall in Hall. specialize (Hall a Ha).
  rewrite forallb_forall in Hall. specialize (Hall b Hb).
  rewrite Heq, String.eqb_refl in Hall. cbn in Hall.
  now apply Z.eqb_eq.
Qed.

Lemma append_inj_length (s1 s2 t1 t2 : string) :
  String.length s1 = String.length s2 ->
  s1 ++ t1 = s2 ++ t2 -> s1 = s2 /\ t1 = t2.
Proof.
  revert s2; induction s1 as [|c s1 IH]; intros [|c2 s2]; cbn;
    try discriminate.
  - auto.
  - intros Hl H. inversion H; subst.
    destruct (IH s2) as [-> ->]; auto.
Qed.

Lemma append_length (s t : string) :
  String.length (s ++ t) = (String.length s + String.length t)%nat.
Proof. induction s as [|c s IH]; cbn; [reflexivity|now rewrite IH]. Qed.

(** On colours with components 0..255, [hex] returns a string of exactly
    seven characters, and two such colours with the same [hex] have the
    same red, green and blue. *)
Theorem hex_byte_colours (m1 m2 : Material) (r1 g1 b1 r2 g2 b2 : Z)
    (rest1 rest2 : list value) :
  rgba m1 = VList (VInt r1 :: VInt g1 :: VInt b1 :: rest1) ->
  rgba m2 = VList (VInt r2 :: VInt g2 :: VInt b2 :: rest2) ->
  0 <= r1 <= 255 -> 0 <= g1 <= 255 -> 0 <= b1 <= 255 ->
  0 <= r2 <= 255 -> 0 <= g2 <= 255 -> 0 <= b2 <= 255 ->
  (exists s, hex m1 = Ok s /\ String.length s = 7%nat)
  /\ (hex m1 = hex m2 -> r1 = r2 /\ g1 = g2 /\ b1 = b2).
Proof.
  intros E1 E2 Hr1 Hg1 Hb1 Hr2 Hg2 Hb2.
  pose proof (hex_of_ints m1 r1 g1 b1 rest1 E1) as H1.
  pose proof (hex_of_ints m2 r2 g2 b2 rest2 E2) as H2.
  split.
  - eexists; split; [exact H1|].
    rewrite !append_length, !fmt_02x_byte_length by assumption. reflexivity.
  - rewrite H1, H2. intro H. inversion H as [H'].
    apply append_inj_length in H' as [Hr H'];
      [|now rewrite !fmt_02x_byte_length].
    apply append_inj_length in H' as [Hg Hb];
      [|now rewrite !fmt_02x_byte_length].
    repeat split; apply fmt_02x_byte_inj; assumption.
Qed.

Lemma hex_byte_colours_witness :
  (exists s, hex green = Ok s /\ String.length s = 7%nat)
  /\ (hex green = hex blue -> 0 = 0 /\ 255 = 0 /\ 0 = 255).
Proof.
  apply (hex_byte_colours green blue 0 255 0 0 0 255 [VInt 255] [VInt 255]);
    try reflexivity; lia.
Defined.

(* ================================================================== *)
(** ** Further properties of load_layerstack and load_layout           *)
(* ================================================================== *)

Lemma build_metadata_type (layerkey : string) (e : value)
    (m : LayerMetadata) :
  build_metadata layerkey e = Ok m -> truthy (type m) = true.
Proof.
  unfold build_metadata. intro H.
  bind_inv H md Hmd. bind_inv H rg Hrg. bind_inv H tx Htx. cbv zeta in H.
  bind_inv H ty Hty. bind_inv H u Hu. apply py_assert_Ok in Hu.
  bind_inv H ty' Hty'. bind_inv H ks Hks. cbn in H. inversion H; subst m.
  cbn. congruence.
Qed.

(** What one iteration of the first loop builds. *)
Lemma build_layer_shape (layerkey : string) (e : value) (l : Layer) :
  build_layer layerkey e = Ok l ->
  name l = layerkey /\ stored_ok (lydt l) l.
Proof.
  unfold build_layer. intro H.
  bind_inv H md Hmd. bind_inv H u Hu. apply py_assert_Ok in Hu.
  bind_inv H md' Hmd'. rewrite Hmd in Hmd'. inversion Hmd'; subst md'.
  rewrite Hu in H. bind_inv H mo Hmo. bind_inv Hmo m Hm.
  cbn in Hmo. inversion Hmo; subst mo.
  apply build_metadata_type in Hm.
  bind_inv H pr Hpr. bind_inv H u' Hu'.
  bind_inv H props Hprops.
  bind_inv H f_ly Hly. bind_inv H f_dt Hdt. cbv zeta in H.
  destruct (existsb is_none [f_ly; f_dt]) eqn:Ex; [discriminate|].
  cbn in Ex. apply orb_false_elim in Ex as [Ely Ex].
  apply orb_false_elim in Ex as [Edt _].
  bind_inv H ly_v Hly'. bind_inv H dt_v Hdt'.
  rewrite Hly in Hly'. inversion Hly'; subst ly_v.
  rewrite Hdt in Hdt'. inversion Hdt'; subst dt_v.
  bind_inv H zh_v Hzh. bind_inv H th_v Hth.
  bind_inv H top_v Htop. bind_inv H bot_v Hbot. cbv zeta in H.
  bind_inv H k_ly Hkly. bind_inv H k_dt Hkdt. cbv zeta in H.
  cbn in H. inversion H; subst l. cbn.
  split; [reflexivity|]. split; [reflexivity|].
  eexists; eexists. repeat split; eauto.
Qed.

Lemma stored_ok_frame (k : lydt_key) (l l' : Layer) :
  via_frame l l' -> stored_ok k l -> stored_ok k l'.
Proof.
  intros [(Hn & Hk & Hm & Hp) _] (Hkey & m & p & Hmd & Hty & Hpr & Hrest).
  split; [congruence|].
  rewrite Hpr in Hp. destruct (properties l') as [p'|] eqn:Ep';
    [|contradiction].
  destruct Hp as (E1 & E2 & _).
  exists m, p'. rewrite Hm, E1, E2. tauto.
Qed.

Lemma dict_set_Forall {A : Type} (P : lydt_key * A -> Prop)
    (key : lydt_key) (v : A) (d : list (lydt_key * A)) :
  Forall P d -> (forall k, k = key -> P (k, v)) ->
  Forall P (dict_set key v d).
Proof.
  intros Hd Hv. induction Hd as [|[k l] d Hkl Hd IH]; cbn.
  - constructor; [now apply Hv|constructor].
  - destruct (key_eqb k key) eqn:E.
    + apply key_eqb_eq in E. constructor; [now apply Hv|exact Hd].
    + constructor; assumption.
Qed.

Lemma build_layers_stored (items : list (string * value)) :
  forall (d : layer_dict) (layerkey : string) (r : layer_dict * string),
    Forall (fun kv => stored_ok (fst kv) (snd kv)) d ->
    build_layers items d layerkey = Ok r ->
    Forall (fun kv => stored_ok (fst kv) (snd kv)) (fst r).
Proof.
  induction items as [|[k e] items IH]; intros d layerkey r Hd H;
    cbn [build_layers] in H.
  - inversion H; subst. exact Hd.
  - bind_inv H l Hl. eapply IH; [|exact H].
    apply dict_set_Forall; [exact Hd|].
    intros k' ->. cbn. apply (build_layer_shape _ _ _ Hl).
Qed.

(** The stages of a successful load. *)
Lemma load_layerstack_yaml_stages (doc : value) (s : LayerStack) :
  load_layerstack_yaml doc = Ok s ->
  exists (d : layer_dict) (layerkey : string),
    build_layers (named_entries doc) [] EmptyString = Ok (d, layerkey)
    /\ resolve_vias layerkey d = Ok (layers s).
Proof.
  unfold load_layerstack_yaml. intro H.
  bind_inv H ls Hls. destruct (negb (truthy ls)); [discriminate|].
  bind_inv H lsv Hlsv. bind_inv H items Hitems. bind_inv H built Hbuilt.
  bind_inv H resolved Hres. cbn in H. inversion H; subst s.
  apply py_item_Ok in Hlsv. subst lsv.
  assert (named_entries doc = items) as ->.
  { unfold named_entries. destruct (field doc "layers"); try discriminate.
    cbn in Hitems. now inversion Hitems. }
  destruct built as [d layerkey]. exists d, layerkey. auto.
Qed.

Lemma frame_In (d d' : layer_dict) (k : lydt_key) (l' : Layer) :
  dict_keys d' = dict_keys d ->
  Forall2 via_frame (dict_values d) (dict_values d') ->
  In (k, l') d' -> exists l, In (k, l) d /\ via_frame l l'.
Proof.
  revert d'; induction d as [|[k0 l0] d IH]; intros [|[k1 l1] d'] Hk HF Hin;
    cbn in *; try discriminate; try contradiction.
  inversion Hk; subst. inversion HF; subst.
  destruct Hin as [Heq|Hin].
  - inversion Heq; subst. exists l0. auto.
  - destruct (IH d') as (l & Hl & Hf); auto. exists l. auto.
Qed.

(** Every layer of a loaded stack is stored under its own [lydt], which is
    the pair of its [ly] and [dt] properties, and has metadata with a
    truthy type and properties with [ly] and [dt]; so indexing the stack
    with a key returns a layer whose [lydt] is that key. *)
Theorem loaded_layers_stored_ok (doc : value) (s : LayerStack)
    (k : lydt_key) (l : Layer) :
  load_layerstack_yaml doc = Ok s ->
  (In (k, l) (layers s) -> stored_ok k l)
  /\ (getitem s k = Some l -> stored_ok k l).
Proof.
  intro H. destruct (load_layerstack_yaml_stages _ _ H)
    as (d & layerkey & Hb & Hr).
  pose proof (build_layers_stored _ _ _ _ (Forall_nil _) Hb) as Hst.
  cbn [fst] in Hst. rewrite Forall_forall in Hst.
  destruct (resolve_vias_preserves _ _ _ Hr) as [Hk HF].
  assert (In (k, l) (layers s) -> stored_ok k l) as Hin.
  { intro Hin. destruct (frame_In _ _ _ _ Hk HF Hin) as (l0 & Hl0 & Hf).
    apply (stored_ok_frame _ _ _ Hf). exact (Hst _ Hl0). }
  split; [exact Hin|].
  intro Hg. apply Hin. now apply dict_get_Some_In.
Qed.

Lemma loaded_layers_stored_ok_witness :
  exists l, getitem plain_stack (AInt 2, AInt 0) = Some l
            /\ stored_ok (AInt 2, AInt 0) l.
Proof.
  destruct (getitem plain_stack (AInt 2, AInt 0)) as [l|] eqn:E;
    [|vm_compute in E; discriminate E].
  exists l. split; [reflexivity|].
  apply (proj2 (loaded_layers_stored_ok doc_plain plain_stack
                  (AInt 2, AInt 0) l eq_refl)).
  exact E.
Defined.

Lemma build_layers_app (xs ys : list (string * value)) :
  forall (d : layer_dict) (layerkey : string),
    build_layers (xs ++ ys) d layerkey =
    (r <- build_layers xs d layerkey ;; build_layers ys (fst r) (snd r)).
Proof.
  induction xs as [|[k e] xs IH]; intros d layerkey; cbn [build_layers app].
  - reflexivity.
  - destruct (build_layer k e) as [l|err]; cbn; [apply IH|reflexivity].
Qed.

Lemma last_nonempty_default {A : Type} (x : A) (l : list A) (d1 d2 : A) :
  last (x :: l) d1 = last (x :: l) d2.
Proof.
  revert x; induction l as [|y l IH]; intro x; [reflexivity|].
  change (last (y :: l) d1 = last (y :: l) d2). apply IH.
Qed.

(** After the first loop, [layerkey] is the key of the last entry. *)
Lemma build_layers_key_last (items : list (string * value)) :
  forall (d : layer_dict) (layerkey : string) (r : layer_dict * string),
    build_layers items d layerkey = Ok r ->
    snd r = last (map fst items) layerkey.
Proof.
  induction items as [|[k e] items IH]; intros d layerkey r H;
    cbn [build_layers] in H.
  - inversion H; reflexivity.
  - bind_inv H l Hl. rewrite (IH _ _ _ H).
    destruct items as [|[k' e'] items']; [reflexivity|].
    cbn [map fst].
    change (last (k' :: map fst items') k
            = last (k' :: map fst items') layerkey).
    apply last_nonempty_default.
Qed.

Lemma build_layers_get_other (ys : list (string * value)) (key : lydt_key) :
  forall (d : layer_dict) (layerkey : string) (r : layer_dict * string),
    build_layers ys d layerkey = Ok r ->
    (forall nm e l, In (nm, e) ys -> build_layer nm e = Ok l ->
                    lydt l <> key) ->
    dict_get key (fst r) = dict_get key d.
Proof.
  induction ys as [|[k e] ys IH]; intros d layerkey r H Hother;
    cbn [build_layers] in H.
  - inversion H; reflexivity.
  - bind_inv H l Hl. rewrite (IH _ _ _ H).
    + rewrite dict_get_set.
      destruct (key_eqb (lydt l) key) eqn:E; [|reflexivity].
      apply key_eqb_eq in E. exfalso.
      exact (Hother k e l (or_introl eq_refl) Hl E).
    + intros nm e' l' Hin. apply Hother. now right.
Qed.

Lemma dict_get_frame (d d' : layer_dict) (k : lydt_key) (l : Layer) :
  dict_keys d' = dict_keys d ->
  Forall2 via_frame (dict_values d) (dict_values d') ->
  dict_get k d = Some l ->
  exists l', dict_get k d' = Some l' /\ via_frame l l'.
Proof.
  revert d'; induction d as [|[k0 l0] d IH]; intros [|[k1 l1] d'] Hk HF Hg;
    cbn in *; try discriminate.
  inversion Hk; subst. inversion HF; subst.
  destruct (key_eqb k0 k).
  - inversion Hg; subst. eauto.
  - auto.
Qed.

(** The last entry on a key wins: an entry of the document that is not
    followed by another entry with the same (ly, dt) is what the loaded
    stack returns for that key, up to the [zh] and [th] the via pass writes
    on a cut layer; entries before it on the same key are overwritten. *)
Theorem loaded_last_entry_wins (doc : value) (s : LayerStack)
    (pre post : list (string * value)) (nm : string) (e : value) (l : Layer) :
  load_layerstack_yaml doc = Ok s ->
  named_entries doc = (pre ++ (nm, e) :: post)%list ->
  build_layer nm e = Ok l ->
  (forall nm' e' l', In (nm', e') post -> build_layer nm' e' = Ok l' ->
                     lydt l' <> lydt l) ->
  exists l', getitem s (lydt l) = Some l' /\ name l' = nm /\ via_frame l l'.
Proof.
  intros H Hdoc Hl Hpost.
  destruct (load_layerstack_yaml_stages _ _ H) as (d & layerkey & Hb & Hr).
  rewrite Hdoc, build_layers_app in Hb.
  bind_inv Hb r1 Hpre. cbn [build_layers] in Hb. rewrite Hl in Hb.
  cbn [bind result_monad] in Hb.
  pose proof (build_layers_get_other _ (lydt l) _ _ _ Hb Hpost) as Hg.
  cbn [fst] in Hg. rewrite dict_get_set, key_eqb_refl in Hg.
  destruct (resolve_vias_preserves _ _ _ Hr) as [Hk HF].
  destruct (dict_get_frame _ _ _ _ Hk HF Hg) as (l' & Hl' & Hf).
  exists l'. split; [exact Hl'|]. split; [|exact Hf].
  destruct Hf as [(Hn & _) _]. rewrite Hn.
  apply (build_layer_shape _ _ _ Hl).
Qed.

Lemma loaded_last_entry_wins_witness :
  exists l', getitem (mkLayerStack (built_of doc_twice)) (AInt 2, AInt 0)
             = Some l' /\ name l' = "new".
Proof.
  destruct (build_layer "new"
              (layer_entry "routing" 2 0 [("zh", VInt 5); ("th", VInt 2)]))
    as [l|] eqn:El; [|vm_compute in El; discriminate El].
  destruct (loaded_last_entry_wins doc_twice (mkLayerStack (built_of doc_twice))
              [("old", layer_entry "routing" 2 0
                         [("zh", VInt 0); ("th", VInt 1)])]
              [] "new"
              (layer_entry "routing" 2 0 [("zh", VInt 5); ("th", VInt 2)]) l)
    as (l' & Hg & Hn & _).
  - vm_compute. reflexivity.
  - reflexivity.
  - exact El.
  - intros nm' e' l' [].
  - exists l'. split; [|exact Hn].
    vm_compute in El. inversion El; subst l. exact Hg.
Defined.

(** What one successful iteration of the via loop has asserted. *)
Lemma via_step_asserts (layerkey : string) (d d' : layer_dict) (i : nat) :
  via_step layerkey d i = Ok d' ->
  exists (v : Layer) (p : LayerProperties),
    nth_error (dict_values d) i = Some v
    /\ properties v = Some p
    /\ truthy (top p) = true /\ truthy (bot p) = true.
Proof.
  unfold via_step. destruct (nth_error (dict_values d) i) as [v|] eqn:Ev;
    [|discriminate].
  intro H. bind_inv H p Hp. cbv zeta in H.
  bind_inv H u1 Hu1. bind_inv H u2 Hu2.
  apply py_assert_Ok in Hu1, Hu2.
  unfold props_of in Hp. destruct (properties v) eqn:E1; [|discriminate].
  inversion Hp; subst. exists v, p. auto.
Qed.

Lemma first_by_name_frame_rev (nm : value) (vals vals' : list Layer)
    (l' : Layer) :
  Forall2 via_frame vals vals' ->
  first_by_name nm vals' = Ok l' ->
  exists l, first_by_name nm vals = Ok l /\ via_frame l l'.
Proof.
  intro H; induction H as [|x y vals vals' Hxy _ IH]; cbn; [discriminate|].
  pose proof Hxy as [(Hn & _) _]. rewrite Hn.
  destruct (py_eq_str nm (name x)).
  - intro Hl; inversion Hl; subst. exists x. auto.
  - exact IH.
Qed.

Lemma first_by_name_cases (nm : value) (vals : list Layer) :
  (exists l, first_by_name nm vals = Ok l)
  \/ first_by_name nm vals = Raise IndexError.
Proof.
  induction vals as [|l vals IH]; cbn; [now right|].
  destruct (py_eq_str nm (name l)); [left; eauto|exact IH].
Qed.

(** Every position the via loop processes holds a resolved via at the
    end. *)
Lemma via_loop_resolved (layerkey : string) (ps : list nat) :
  forall d d' : layer_dict,
    NoDup ps -> cut_positions ps d ->
    via_loop layerkey ps d = Ok d' ->
    forall i v', In i ps -> nth_error (dict_values d') i = Some v' ->
                 via_resolved (dict_values d') v'.
Proof.
  induction ps as [|i ps IH]; intros d d' Hnd Hcut H k v' Hk Hv';
    [destruct Hk|].
  pose proof (via_loop_spec layerkey (i :: ps) d d' Hnd Hcut H)
    as (_ & HFall & _ & _).
  cbn [via_loop] in H. bind_inv H d1 Hstep.
  inversion Hnd as [|? ? Hnotin Hnd']; subst.
  destruct (via_step_spec _ _ _ _ Hstep)
    as (v & p & bot_l & top_l & bp & tp & zh' & th'
        & Hv & Hp & Hbot & Htop & Hbp & Htp & Hadd & Hsub & Hd1).
  destruct (via_step_asserts _ _ _ _ Hstep)
    as (v0 & p0 & Hv0 & Hp0 & Htt & Htb).
  rewrite Hv in Hv0. inversion Hv0; subst v0. rewrite Hp in Hp0.
  inversion Hp0; subst p0. clear Hv0 Hp0.
  assert (is_cut v = Ok true) as Hvcut.
  { destruct (Hcut i (or_introl eq_refl)) as (l & Hl & Hc). congruence. }
  assert (Forall2 via_frame (dict_values d) (dict_values d1)) as HF1.
  { subst d1. apply (store_at_frame _ _ _ _ Hv).
    now apply with_zh_th_frame. }
  assert (cut_positions ps d1) as Hcut1.
  { apply (cut_positions_frame _ _ _ HF1).
    intros j Hj. apply Hcut. now right. }
  destruct Hk as [<-|Hk]; [|exact (IH d1 d' Hnd' Hcut1 H k v' Hk Hv')].
  destruct (via_loop_spec layerkey ps d1 d' Hnd' Hcut1 H)
    as (_ & _ & Hout & _).
  rewrite (Hout i Hnotin) in Hv'. subst d1.
  rewrite (store_at_nth_same _ _ _ _ Hv) in Hv'.
  inversion Hv'; subst v'; clear Hv'.
  destruct (py_sub_Ok _ _ _ Hsub) as (zt & zv & Ezt & Ezv & Eth).
  destruct (first_by_name_frame _ _ _ _ HFall Hbot) as (b' & Hb' & _).
  destruct (first_by_name_frame _ _ _ _ HFall Htop) as (t' & Ht' & _).
  exists (set_zh_th p zh' th'), zv, (zt - zv), b', t'.
  subst zh' th'. cbn. repeat split; auto.
Qed.



(** A cut layer whose [top] or [bot] is missing, or names no stored
    layer, makes the via pass raise: the stack is not returned. *)
Theorem dangling_via_fails (layerkey : string) (d : layer_dict) (v : Layer) :
  In v (dict_values d) ->
  is_cut v = Ok true ->
  dangling_via (dict_values d) v ->
  exists err, resolve_vias layerkey d = Raise err.
Proof.
  intros Hv Hc (p & Hp & Hdang).
  destruct (resolve_vias layerkey d) as [d'|err] eqn:Hr;
    [exfalso|eexists; reflexivity].
  unfold resolve_vias in Hr. bind_inv Hr ps Hps.
  destruct (via_positions_spec _ _ _ Hps) as [Hnd Hin].
  assert (cut_positions ps d) as Hcut.
  { intros i Hi. apply Hin in Hi as (_ & l & Hl & Hcl).
    rewrite Nat.sub_0_r in Hl. eauto. }
  destruct (via_loop_spec layerkey ps d _ Hnd Hcut Hr) as (_ & HF & _).
  apply In_nth_error in Hv as (i & Hi).
  assert (In i ps) as Hips.
  { apply Hin. split; [lia|]. exists v. now rewrite Nat.sub_0_r. }
  destruct (Forall2_nth_l _ _ _ _ _ HF Hi) as (v' & Hv' & Hf).
  destruct (via_loop_resolved layerkey ps d _ Hnd Hcut Hr i v' Hips Hv')
    as (p' & zv & tv & b' & t' & Hp' & _ & _ & Htt & Htb & Hb' & Ht').
  destruct Hf as [(_ & _ & _ & Hpp) _]. rewrite Hp, Hp' in Hpp.
  destruct Hpp as (_ & _ & Etop & Ebot & _). rewrite Etop in *.
  rewrite Ebot in *.
  destruct (first_by_name_frame_rev _ _ _ _ HF Hb') as (b0 & Hb0 & _).
  destruct (first_by_name_frame_rev _ _ _ _ HF Ht') as (t0 & Ht0 & _).
  destruct Hdang as [E|[E|[E|E]]]; congruence.
Qed.

Lemma dangling_via_fails_witness :
  exists err, resolve_vias "via1" (built_of doc_dangling) = Raise err.
Proof.
  destruct (nth_error (dict_values (built_of doc_dangling)) 1) as [v|] eqn:Ev;
    [|vm_compute in Ev; discriminate Ev].
  apply (dangling_via_fails "via1" (built_of doc_dangling) v).
  - apply nth_error_In with (n := 1%nat). exact Ev.
  - vm_compute in Ev. inversion Ev; subst v. reflexivity.
  - vm_compute in Ev. inversion Ev; subst v.
    eexists. split; [reflexivity|].
    right; right; left. vm_compute. reflexivity.
Defined.

Lemma named_entries_inv (doc : value) :
  named_entries doc <> [] ->
  exists dd items,
    doc = VDict dd /\ assoc "layers" dd = Some (VDict items)
    /\ named_entries doc = items /\ truthy (VDict items) = true.
Proof.
  unfold named_entries, field.
  destruct doc as [| | | |dd]; try (intro H; now contradiction H).
  destruct (assoc "layers" dd) as [ls|] eqn:E; [|intro H; now contradiction H].
  destruct ls as [| | | |items]; try (intro H; now contradiction H).
  intro H. exists dd, items. repeat split; auto.
  destruct items; [now contradiction H|reflexivity].
Qed.

Lemma load_layerstack_yaml_unfold (doc : value) (d : layer_dict)
    (layerkey : string) :
  named_entries doc <> [] ->
  build_layers (named_entries doc) [] EmptyString = Ok (d, layerkey) ->
  load_layerstack_yaml doc =
  match resolve_vias layerkey d with
  | Ok resolved => Ok (mkLayerStack resolved)
  | Raise e => Raise e
  end.
Proof.
  intros Hne Hb.
  destruct (named_entries_inv doc Hne) as (dd & items & -> & El & En & Ht).
  rewrite En in Hb.
  unfold load_layerstack_yaml, py_get, py_item, py_items. rewrite El.
  cbn [bind result_monad]. rewrite Ht. cbn [negb]. rewrite Hb.
  reflexivity.
Qed.

(** A missing [top] is reported under the wrong name: when the first cut
    layer of the stack has no (truthy) [top], the load raises the assertion
    "Layer K is missing top property." where K is the key of the last entry
    of the document, whichever entry the via is. *)
Theorem missing_top_names_last_entry (doc : value) (d : layer_dict)
    (layerkey : string) (i : nat) (ps : list nat) (v : Layer)
    (p : LayerProperties) :
  named_entries doc <> [] ->
  build_layers (named_entries doc) [] EmptyString = Ok (d, layerkey) ->
  via_positions (dict_values d) 0 = Ok (i :: ps) ->
  nth_error (dict_values d) i = Some v ->
  properties v = Some p ->
  truthy (top p) = false ->
  load_layerstack_yaml doc =
  Raise (AssertionError
           ("Layer " ++ last (map fst (named_entries doc)) EmptyString
              ++ " is missing top property.")).
Proof.
  intros Hne Hb Hps Hv Hp Ht.
  rewrite (load_layerstack_yaml_unfold doc d layerkey Hne Hb).
  pose proof (build_layers_key_last _ _ _ _ Hb) as Hk. cbn [snd] in Hk.
  rewrite <- Hk.
  unfold resolve_vias. rewrite Hps. cbn [bind result_monad via_loop].
  unfold via_step. rewrite Hv. unfold props_of. rewrite Hp.
  cbn [bind result_monad]. rewrite Ht. reflexivity.
Qed.

Lemma missing_top_names_last_entry_witness :
  load_layerstack_yaml doc_no_top =
  Raise (AssertionError "Layer met1 is missing top property.").
Proof.
  destruct (nth_error (dict_values (built_of doc_no_top)) 0) as [v|] eqn:Ev;
    [|vm_compute in Ev; discriminate Ev].
  destruct (properties v) as [p|] eqn:Ep;
    [|vm_compute in Ev; inversion Ev; subst v; discriminate Ep].
  apply (missing_top_names_last_entry doc_no_top (built_of doc_no_top)
           "met1" 0 [] v p).
  - discriminate.
  - vm_compute. reflexivity.
  - vm_compute. reflexivity.
  - exact Ev.
  - exact Ep.
  - vm_compute in Ev. inversion Ev; subst v.
    vm_compute in Ep. inversion Ep; subst p. reflexivity.
Defined.

(** A document that is a mapping without [layers], or whose [layers] is
    null or an empty mapping, is rejected with "Layerstack is missing
    layers." once the file exists and has a supported extension. *)
Theorem load_layerstack_missing_layers (f : yaml_file)
    (dd : list (string * value)) :
  file_exists f = true ->
  In (suffix f) _LAYERSTACK_FILE_EXTENSIONS ->
  parsed f = Some (VDict dd) ->
  truthy (field (VDict dd) "layers") = false ->
  load_layerstack f = Raise (ValueError "Layerstack is missing layers.").
Proof.
  intros He Hs Hp Ht. unfold load_layerstack. rewrite He, Hp.
  apply str_mem_In in Hs. rewrite Hs.
  cbn [py_assert bind result_monad ret negb].
  unfold load_layerstack_yaml, py_get. unfold field in Ht.
  cbn [bind result_monad]. rewrite Ht. reflexivity.
Qed.

Lemma load_layerstack_missing_layers_witness :
  load_layerstack (file_of (VDict [("layers", VDict [])])) =
  Raise (ValueError "Layerstack is missing layers.").
Proof.
  apply (load_layerstack_missing_layers
           (file_of (VDict [("layers", VDict [])])) [("layers", VDict [])]).
  - reflexivity.
  - cbn. right; left; reflexivity.
  - reflexivity.
  - reflexivity.
Defined.

Section LoadLayout.
Variable library : Type.
Variables read_oas read_gds : string -> result library.

(** [load_layout] needs an existing file first, whatever its extension;
    it returns only what the OASIS reader returns for ".oas"/".oasis" or
    what the GDSII reader returns for ".gds"/".gdsii"; and every other
    extension of an existing file (extensions are compared as written, so
    upper-case ones too) raises [ValueError] without calling a reader. *)
Theorem load_layout_dispatch (f : layout_file) :
  (lf_exists f = false ->
   load_layout read_oas read_gds f =
   Raise (AssertionError ("File " ++ lf_fp f ++ " does not exist.")))
  /\ (forall lib, load_layout read_oas read_gds f = Ok lib ->
        lf_exists f = true
        /\ (In (lf_suffix f) [".oas"; ".oasis"]
            /\ read_oas (lf_fp f) = Ok lib
            \/ In (lf_suffix f) [".gds"; ".gdsii"]
               /\ read_gds (lf_fp f) = Ok lib))
  /\ (lf_exists f = true ->
      ~ In (lf_suffix f) _LAYOUT_FILE_EXTENSIONS ->
      load_layout read_oas read_gds f =
      Raise (ValueError ("Unsupported file extension: " ++ lf_suffix f))).
Proof.
  unfold load_layout. cbv zeta.
  change (firstn 2 _LAYOUT_FILE_EXTENSIONS) with [".oas"; ".oasis"].
  change (skipn 2 _LAYOUT_FILE_EXTENSIONS) with [".gds"; ".gdsii"].
  split; [intros ->; reflexivity|]. split.
  - intros lib H. destruct (lf_exists f); [|discriminate].
    split; [reflexivity|]. cbn [py_assert bind result_monad ret] in H.
    destruct (str_mem (lf_suffix f) [".oas"; ".oasis"]) eqn:E1.
    + left. split; [now apply str_mem_In|exact H].
    + destruct (str_mem (lf_suffix f) [".gds"; ".gdsii"]) eqn:E2;
        [|discriminate].
      right. split; [now apply str_mem_In|exact H].
  - intros -> Hn. cbn [py_assert bind result_monad ret].
    destruct (str_mem (lf_suffix f) [".oas"; ".oasis"]) eqn:E1.
    { apply str_mem_In in E1. exfalso. apply Hn.
      unfold _LAYOUT_FILE_EXTENSIONS. cbn in *. tauto. }
    destruct (str_mem (lf_suffix f) [".gds"; ".gdsii"]) eqn:E2.
    { apply str_mem_In in E2. exfalso. apply Hn.
      unfold _LAYOUT_FILE_EXTENSIONS. cbn in *. tauto. }
    reflexivity.
Qed.
End LoadLayout.

(* ================================================================== *)
(** ** Further properties of render_to_mesh                             *)
(* ================================================================== *)

Lemma bindM_Ok {A B : Type} (m : M A) (k : A -> M B) (t t' : list event)
    (b : B) :
  bind m k t = (Ok b, t') ->
  exists a t1, m t = (Ok a, t1) /\ k a t1 = (Ok b, t').
Proof.
  cbn. destruct (m t) as [[a|e] t1]; [|discriminate].
  intro H. exists a, t1. auto.
Qed.

Lemma emit_Ok (e : event) (t t' : list event) (u : unit) :
  emit e t = (Ok u, t') -> t' = (t ++ [e])%list.
Proof. unfold emit. intro H; now inversion H. Qed.

Lemma lift_Ok {A : Type} (r : result A) (t t' : list event) (a : A) :
  lift r t = (Ok a, t') -> r = Ok a /\ t' = t.
Proof. unfold lift. intro H; inversion H; auto. Qed.

Lemma assertM_Ok (c : bool) (msg : string) (t t' : list event) (u : unit) :
  (py_assert c msg : M unit) t = (Ok u, t') -> c = true /\ t' = t.
Proof. destruct c; cbn; intro H; inversion H; auto. Qed.

Ltac bindM_inv H a t1 Ha :=
  apply bindM_Ok in H as (a & t1 & Ha & H); cbv beta in H.

Section SceneFacts.
Variable path_suffix : string -> string.
Variable mesh : Type.
Variable extrude_polygon :
  list Geometry.point -> list Geometry.point -> value -> value -> result mesh.
Variable scene_export : Scene mesh -> string -> result unit.

Local Abbreviation render_to_mesh'' :=
  (render_to_mesh path_suffix extrude_polygon scene_export).

Lemma render_polys_nodes (key : lydt_key) (zbot height : value)
    (cmap : color_map) (polys : list polygon) :
  forall (id : nat) (lc lc' : LayerScene mesh) (t t' : list event),
    render_polys extrude_polygon key zbot height cmap id polys lc t
    = (Ok lc', t') ->
    ls_base_frame lc' = ls_base_frame lc /\ ls_id lc' = ls_id lc
    /\ exists new,
         ls_nodes lc' = (ls_nodes lc ++ new)%list
         /\ poly_nodes extrude_polygon key zbot height cmap id polys new.
Proof.
  induction polys as [|vertices polys IH]; intros id lc lc' t t' H;
    cbn [render_polys] in H.
  - inversion H; subst. repeat split. exists []. split; [|exact I].
    now rewrite app_nil_r.
  - cbv zeta in H.
    bindM_inv H u1 t1 H1. bindM_inv H u2 t2 H2.
    bindM_inv H poly3D t3 H3. apply lift_Ok in H3 as [H3 _].
    bindM_inv H colour t4 H4. apply lift_Ok in H4 as [H4 _].
    bindM_inv H u5 t5 H5.
    destruct (IH _ _ _ _ _ H) as (Hb & Hi & new & Hn & Hp).
    cbn [ls_base_frame ls_id ls_nodes] in Hb, Hi, Hn.
    split; [exact Hb|]. split; [exact Hi|].
    exists (mkNode (poly_id key id) (poly_id key id) poly3D colour :: new).
    split; [rewrite Hn, <- app_assoc; reflexivity|].
    cbn [poly_nodes node_name node_id geometry face_colors].
    repeat split; auto.
    destruct (dict_get key cmap) as [lcm|]; [|discriminate].
    exists lcm. auto.
Qed.

Lemma render_layer_child (layerstack : LayerStack) (tcell : Cell)
    (cmap : color_map) (canvas canvas' : Scene mesh) (key : lydt_key)
    (t t' : list event) :
  render_layer extrude_polygon layerstack tcell cmap canvas key t
  = (Ok canvas', t') ->
  base_frame canvas' = base_frame canvas
  /\ scene_id canvas' = scene_id canvas
  /\ exists c,
       children canvas' = (children canvas ++ [c])%list
       /\ child_ok extrude_polygon layerstack tcell cmap key c.
Proof.
  unfold render_layer. intro H.
  bindM_inv H u1 t1 H1.
  bindM_inv H polys t2 H2. apply lift_Ok in H2 as [H2 _].
  bindM_inv H l t3 H3. apply lift_Ok in H3 as [H3 _]. cbv zeta in H.
  bindM_inv H u4 t4 H4.
  bindM_inv H p t5 H5. apply lift_Ok in H5 as [H5 _].
  bindM_inv H u6 t6 H6. apply assertM_Ok in H6 as [H6 _].
  bindM_inv H u7 t7 H7. apply assertM_Ok in H7 as [H7 _].
  bindM_inv H lc' t8 H8. bindM_inv H u9 t9 H9.
  cbn in H. inversion H; subst canvas'. cbn.
  destruct (render_polys_nodes _ _ _ _ _ _ _ _ _ _ H8)
    as (Hb & Hi & new & Hn & Hp).
  cbn in Hb, Hi, Hn.
  split; [reflexivity|]. split; [reflexivity|].
  eexists. split; [reflexivity|].
  unfold child_ok; cbn. split; [reflexivity|]. split; [reflexivity|].
  unfold stack_layer in H3. destruct (getitem layerstack key) as [l0|] eqn:Eg;
    [|discriminate]. inversion H3; subst l0.
  unfold props_of in H5. destruct (properties l) as [p0|] eqn:Ep;
    [|discriminate]. inversion H5; subst p0.
  exists l, p, polys. rewrite Hn.
  repeat split; auto; now apply negb_true_iff.
Qed.

Lemma render_layers_children (layerstack : LayerStack) (tcell : Cell)
    (cmap : color_map) (ks : list lydt_key) :
  forall (canvas canvas' : Scene mesh) (t t' : list event),
    render_layers extrude_polygon layerstack tcell cmap ks canvas t
    = (Ok canvas', t') ->
    base_frame canvas' = base_frame canvas
    /\ scene_id canvas' = scene_id canvas
    /\ exists cs,
         children canvas' = (children canvas ++ cs)%list
         /\ Forall2 (child_ok extrude_polygon layerstack tcell cmap) ks cs.
Proof.
  induction ks as [|key ks IH]; intros canvas canvas' t t' H;
    cbn [render_layers] in H.
  - inversion H; subst. repeat split. exists []. split; [|constructor].
    now rewrite app_nil_r.
  - bindM_inv H c1 t1 H1.
    destruct (render_layer_child _ _ _ _ _ _ _ _ H1)
      as (Hb1 & Hi1 & c & Hc & Hok).
    destruct (IH _ _ _ _ H) as (Hb & Hi & cs & Hcs & HF).
    split; [congruence|]. split; [congruence|].
    exists (c :: cs). split; [|now constructor].
    rewrite Hcs, Hc, <- app_assoc. reflexivity.
Qed.

(** The shape of a successful render. *)
Lemma render_to_mesh_shape (layout : Library) (layerstack : LayerStack)
    (topcell out : option string) (cmap : option color_map)
    (s : Scene mesh) (t t' : list event) :
  render_to_mesh'' layout layerstack topcell out cmap t = (Ok s, t') ->
  exists (tcell : Cell) (cmap' : color_map) (t1 t2 : list event),
    select_topcell layout topcell t = (Ok tcell, t)
    /\ match cmap with
       | Some c => cmap' = c
       | None => default_cmap layerstack tcell
                   (dict_keys (layers layerstack)) [] t1 = (Ok cmap', t2)
       end
    /\ base_frame s = cell_name tcell
    /\ scene_id s = cell_name tcell
    /\ Forall2 (child_ok extrude_polygon layerstack tcell cmap')
               (dict_keys (layers layerstack)) (children s).
Proof.
  unfold render_to_mesh. intro H.
  bindM_inv H u0 t0 H0.
  assert (t0 = t) as ->.
  { destruct (out_given out); [apply assertM_Ok in H0 as [_ ->]|
                               cbn in H0; inversion H0]; reflexivity. }
  bindM_inv H tcell t1 H1.
  assert (t1 = t) as ->.
  { unfold select_topcell in H1. unfold lift in H1. cbn in H1.
    destruct (max_area_cell (cells layout)); [|discriminate].
    destruct (topcell_absent topcell (cells layout));
      [now inversion H1|].
    destruct topcell; [|now inversion H1].
    destruct (cell_by_name s0 (cells layout)); now inversion H1. }
  bindM_inv H u2 t2 H2. cbv zeta in H.
  bindM_inv H cmap' t3 H3.
  bindM_inv H canvas' t4 H4.
  bindM_inv H u5 t5 H5. cbn in H. inversion H; subst s.
  destruct (render_layers_children _ _ _ _ _ _ _ _ H4)
    as (Hb & Hi & cs & Hcs & HF).
  cbn in Hb, Hi, Hcs. subst cs.
  exists tcell, cmap', t2, t3. split; [exact H1|].
  split; [destruct cmap; [cbn in H3; now inversion H3|exact H3]|].
  auto.
Qed.


End SceneFacts.

Section SceneViews.
Variable path_suffix : string -> string.
Variable mesh : Type.
Variable extrude_polygon :
  list Geometry.point -> list Geometry.point -> value -> value -> result mesh.
Variable scene_export : Scene mesh -> string -> result unit.

Local Abbreviation render_to_mesh3 :=
  (render_to_mesh path_suffix extrude_polygon scene_export).




(** Every layer of the stack needs heights, with or without polygons: if
    the layer stored under some key of the stack has no [zh] or no [th],
    the render raises. *)
Theorem render_needs_heights (layout : Library) (layerstack : LayerStack)
    (topcell out : option string) (cmap : option color_map)
    (t : list event) (key : lydt_key) (l : Layer) (p : LayerProperties) :
  In key (dict_keys (layers layerstack)) ->
  getitem layerstack key = Some l ->
  properties l = Some p ->
  is_none (zh p) = true \/ is_none (th p) = true ->
  exists e,
    fst (render_to_mesh3 layout layerstack topcell out cmap t) = Raise e.
Proof.
  intros Hin Hg Hp Hnone.
  destruct (render_to_mesh3 layout layerstack topcell out cmap t)
    as [[s|e] t'] eqn:H; [exfalso|eexists; reflexivity].
  destruct (render_to_mesh_shape _ _ _ _ _ _ _ _ _ _ _ _ H)
    as (tcell & cmap' & t1 & t2 & _ & _ & _ & _ & HF).
  apply In_nth_error in Hin as (i & Hi).
  destruct (Forall2_nth_l _ _ _ _ _ HF Hi) as (c & _ & Hok).
  destruct Hok as (_ & _ & l' & p' & polys & Hg' & Hp' & Hz & Ht & _).
  rewrite Hg in Hg'. inversion Hg'; subst l'.
  rewrite Hp in Hp'. inversion Hp'; subst p'.
  destruct Hnone; congruence.
Qed.

End SceneViews.



Lemma render_needs_heights_witness :
  exists e,
    fst (render_to_mesh suffix_of extrude_prism export_ok lib_x
           (mkLayerStack (built_of doc_plain)) (Some "X") None None [])
    = Raise e.
Proof.
  destruct (getitem (mkLayerStack (built_of doc_plain)) (AInt 3, AInt 0))
    as [l|] eqn:El; [|vm_compute in El; discriminate El].
  destruct (properties l) as [p|] eqn:Ep;
    [|vm_compute in El; inversion El; subst l; discriminate Ep].
  apply (render_needs_heights suffix_of prism extrude_prism export_ok lib_x
           (mkLayerStack (built_of doc_plain)) (Some "X") None None []
           (AInt 3, AInt 0) l p).
  - vm_compute. tauto.
  - exact El.
  - exact Ep.
  - vm_compute in El. inversion El; subst l.
    vm_compute in Ep. inversion Ep; subst p. left; reflexivity.
Defined.




Section DefaultColours.
Variable path_suffix : string -> string.
Variable mesh : Type.
Variable extrude_polygon :
  list Geometry.point -> list Geometry.point -> value -> value -> result mesh.
Variable scene_export : Scene mesh -> string -> result unit.



End DefaultColours.


(** A computation that appends only events satisfying [P], whatever the
    trace it starts from. *)
Definition emits (P : event -> Prop) {A : Type} (m : M A) : Prop :=
  exists (r : result A) (es : list event),
    (forall t, m t = (r, (t ++ es)%list)) /\ Forall P es.

Section Emits.
Variable P : event -> Prop.

Lemma emits_ret {A : Type} (a : A) : emits P (ret a : M A).
Proof.
  exists (Ok a), []. split; [|constructor].
  intro t; cbn. now rewrite app_nil_r.
Qed.

Lemma emits_throw {A : Type} (e : pyerr) : emits P (throw e : M A).
Proof.
  exists (Raise e), []. split; [|constructor].
  intro t; cbn. now rewrite app_nil_r.
Qed.

Lemma emits_lift {A : Type} (r : result A) : emits P (lift r).
Proof.
  exists r, []. split; [|constructor].
  intro t; unfold lift. now rewrite app_nil_r.
Qed.

Lemma emits_emit (e : event) : P e -> emits P (emit e).
Proof.
  intro H. exists (Ok tt), [e]. split; [reflexivity|].
  constructor; [exact H|constructor].
Qed.

Lemma emits_assert (c : bool) (msg : string) :
  emits P (py_assert c msg : M unit).
Proof. destruct c; [apply emits_ret|apply emits_throw]. Qed.

Lemma emits_bind {A B : Type} (m : M A) (k : A -> M B) :
  emits P m -> (forall a, emits P (k a)) -> emits P (bind m k).
Proof.
  intros (r & es & Hm & Hes) Hk.
  destruct r as [a|e].
  - destruct (Hk a) as (r' & es' & Hk' & Hes').
    exists r', (es ++ es')%list. split.
    + intro t; cbn. rewrite Hm, Hk'. now rewrite app_assoc.
    + apply Forall_app; auto.
  - exists (Raise e), es. split; [|exact Hes].
    intro t; cbn. now rewrite Hm.
Qed.
End Emits.

Ltac emits_step :=
  first
    [ apply emits_ret
    | apply emits_throw
    | apply emits_lift
    | apply emits_assert
    | apply emits_emit; exact I
    | apply emits_bind; [|intro] ].

Lemma emits_select_topcell (layout : Library) (topcell : option string) :
  emits not_export (select_topcell layout topcell).
Proof.
  unfold select_topcell. emits_step; [emits_step|].
  destruct (topcell_absent topcell (cells layout)); [emits_step|].
  destruct topcell; emits_step.
Qed.

Lemma emits_default_cmap (layerstack : LayerStack) (tcell : Cell)
    (ks : list lydt_key) (cmap : color_map) :
  emits not_export (default_cmap layerstack tcell ks cmap).
Proof.
  revert cmap; induction ks as [|key ks IH]; intro cmap; cbn [default_cmap].
  - emits_step.
  - repeat emits_step. apply IH.
Qed.

(** The events a run may append when the output is [oo]: no export at
    all, or (only with an output path) one export, as the last event. *)
Definition export_last (oo : option string) (es : list event) : Prop :=
  Forall not_export es
  \/ exists o es', oo = Some o /\ es = (es' ++ [EvExport o])%list
                   /\ Forall not_export es'.

Section ExportDiscipline.
Variable path_suffix : string -> string.
Variable mesh : Type.
Variable extrude_polygon :
  list Geometry.point -> list Geometry.point -> value -> value -> result mesh.
Variable scene_export : Scene mesh -> string -> result unit.

Lemma emits_render_polys (key : lydt_key) (zbot height : value)
    (cmap : color_map) (polys : list polygon) :
  forall (id : nat) (layer_canvas : LayerScene mesh),
    emits not_export
      (render_polys extrude_polygon key zbot height cmap id polys
         layer_canvas).
Proof.
  induction polys as [|vertices polys IH]; intros id layer_canvas;
    cbn [render_polys].
  - emits_step.
  - repeat emits_step. apply IH.
Qed.

Lemma emits_render_layers (layerstack : LayerStack) (tcell : Cell)
    (cmap : color_map) (ks : list lydt_key) :
  forall canvas : Scene mesh,
    emits not_export
      (render_layers extrude_polygon layerstack tcell cmap ks canvas).
Proof.
  induction ks as [|key ks IH]; intro canvas; cbn [render_layers].
  - emits_step.
  - emits_step; [|apply IH]. unfold render_layer.
    repeat first [apply emits_render_polys | emits_step].
Qed.

(** The part of [render_to_mesh] that precedes the export. *)
Definition before_export (layout : Library) (layerstack : LayerStack)
    (topcell out : option string) (cmap : option color_map)
  : M (Scene mesh) :=
  match out_given out with
  | Some o =>
      py_assert (str_mem (path_suffix o) _OUT_FILE_EXTENSIONS)
        ("Unsupported output file format: " ++ path_suffix o)
  | None => ret tt
  end ;;;
  tcell <- select_topcell layout topcell ;;
  emit (EvScene (cell_name tcell)) ;;;
  cmap' <- match cmap with
           | None =>
               default_cmap layerstack tcell
                 (dict_keys (layers layerstack)) []
           | Some c => ret c
           end ;;
  render_layers extrude_polygon layerstack tcell cmap'
    (dict_keys (layers layerstack))
    (mkScene (cell_name tcell) (cell_name tcell) []).

Lemma emits_before_export (layout : Library) (layerstack : LayerStack)
    (topcell out : option string) (cmap : option color_map) :
  emits not_export (before_export layout layerstack topcell out cmap).
Proof.
  unfold before_export.
  emits_step; [destruct (out_given out); emits_step|].
  emits_step; [apply emits_select_topcell|].
  emits_step; [emits_step|].
  emits_step; [destruct cmap; [emits_step|apply emits_default_cmap]|].
  apply emits_render_layers.
Qed.

Lemma render_to_mesh_split (layout : Library) (layerstack : LayerStack)
    (topcell out : option string) (cmap : option color_map)
    (t : list event) :
  render_to_mesh path_suffix extrude_polygon scene_export layout layerstack
    topcell out cmap t =
  match before_export layout layerstack topcell out cmap t with
  | (Ok canvas', t1) =>
      match out_given out with
      | Some o =>
          (match scene_export canvas' o with
           | Ok _ => Ok canvas'
           | Raise e => Raise e
           end, (t1 ++ [EvExport o])%list)
      | None => (Ok canvas', t1)
      end
  | (Raise e, t1) => (Raise e, t1)
  end.
Proof.
  unfold render_to_mesh, before_export. cbn [bind M_monad].
  destruct (out_given out) as [o|];
    [destruct (str_mem (path_suffix o) _OUT_FILE_EXTENSIONS)|];
    cbn [py_assert ret throw M_monad]; try reflexivity;
    (destruct (select_topcell layout topcell t) as [[tcell|e] t1];
     [|reflexivity]);
    unfold emit, lift; cbv beta iota;
    (destruct cmap as [c|]; cbn [ret M_monad];
     [|destruct (default_cmap layerstack tcell
                   (dict_keys (layers layerstack)) []
                   (t1 ++ [EvScene (cell_name tcell)])%list)
         as [[cmap'|e] t3]; [|reflexivity]]);
    match goal with
    | |- context [render_layers ?a ?b ?c ?d ?e ?f ?g] =>
        destruct (render_layers a b c d e f g) as [[canvas'|e'] t4];
        [|reflexivity]
    end;
    try reflexivity;
    destruct (scene_export canvas' o) as [[]|e']; reflexivity.
Qed.

(** Export discipline: a run appends an export event only when an output
    path is given, at most one, and as its last event, after every layer
    was rendered; without an output path nothing is ever exported; and a
    run that returns a scene with an output path has exported exactly the
    scene it returns, successfully. *)
Theorem render_export_discipline (layout : Library) (layerstack : LayerStack)
    (topcell out : option string) (cmap : option color_map)
    (t : list event) :
  exists es,
    snd (render_to_mesh path_suffix extrude_polygon scene_export layout
           layerstack topcell out cmap t) = (t ++ es)%list
    /\ export_last (out_given out) es
    /\ (out_given out = None -> Forall not_export es)
    /\ (forall s o,
          fst (render_to_mesh path_suffix extrude_polygon scene_export
                 layout layerstack topcell out cmap t) = Ok s ->
          out_given out = Some o ->
          scene_export s o = Ok tt
          /\ exists es', es = (es' ++ [EvExport o])%list
                         /\ Forall not_export es').
Proof.
  rewrite render_to_mesh_split.
  destruct (emits_before_export layout layerstack topcell out cmap)
    as (r & es & Hrun & Hes).
  rewrite Hrun. destruct r as [canvas'|e].
  - destruct (out_given out) as [o|] eqn:Eo.
    + exists (es ++ [EvExport o])%list. cbn [fst snd].
      split; [now rewrite app_assoc|].
      split; [right; exists o, es; auto|].
      split; [discriminate|].
      intros s o' Hs Ho'. inversion Ho'; subst o'.
      destruct (scene_export canvas' o) as [[]|e] eqn:Ex; [|discriminate].
      inversion Hs; subst s. split; [exact Ex|]. exists es. auto.
    + exists es. cbn [fst snd]. split; [reflexivity|].
      split; [now left|]. split; [auto|]. intros s o _ Ho. discriminate.
  - exists es. cbn [fst snd]. split; [reflexivity|].
    split; [now left|]. split; [auto|]. intros s o Hs. discriminate.
Qed.

(** A library without cells cannot be rendered: once the output check has
    passed, [max] over the empty cell list raises [ValueError] before any
    scene is created, whatever the top-cell name. *)
Theorem render_empty_library (layout : Library) (layerstack : LayerStack)
    (topcell out : option string) (cmap : option color_map)
    (t : list event) :
  cells layout = [] ->
  (forall o, out_given out = Some o ->
             In (path_suffix o) _OUT_FILE_EXTENSIONS) ->
  render_to_mesh path_suffix extrude_polygon scene_export layout layerstack
    topcell out cmap t =
  (Raise (ValueError "max() arg is an empty sequence"), t).
Proof.
  intros Hc Hout. unfold render_to_mesh, select_topcell. rewrite Hc.
  destruct (out_given out) as [o|].
  - specialize (Hout o eq_refl). apply str_mem_In in Hout. rewrite Hout.
    reflexivity.
  - reflexivity.
Qed.

End ExportDiscipline.

Lemma render_empty_library_witness :
  render_to_mesh suffix_of extrude_prism export_ok (mkLibrary []) plain_stack
    (Some "X") (Some "out.glb") None [] =
  (Raise (ValueError "max() arg is an empty sequence"), []).
Proof.
  apply (render_empty_library suffix_of prism extrude_prism export_ok
           (mkLibrary []) plain_stack (Some "X") (Some "out.glb") None []).
  - reflexivity.
  - intros o Ho. cbn in Ho. inversion Ho; subst o. cbn. tauto.
Defined.

Lemma select_topcell_absent_witness :
  select_topcell lib_abc (Some "TOP") [] = (Ok cell_b, [])
  /\ exists pre post,
       cells lib_abc = (pre ++ cell_b :: post)%list
       /\ (forall x, In x pre -> area x < area cell_b)
       /\ (forall x, In x post -> area x <= area cell_b).
Proof.
  exact (select_topcell_absent lib_abc (Some "TOP") cell_a [cell_b; cell_c]
           [] eq_refl eq_refl).
Defined.

Lemma select_topcell_present_witness :
  exists pre c post,
    cells lib_abc = (pre ++ c :: post)%list /\ cell_name c = "C"
    /\ (forall x, In x pre -> cell_name x <> "C")
    /\ select_topcell lib_abc (Some "C") [] = (Ok c, []).
Proof.
  exact (select_topcell_present lib_abc "C" [] eq_refl).
Defined.

(* ================================================================== *)
(** ** Further properties of the shell and hole assembly                *)
(* ================================================================== *)

Section FromKeysFacts.
Context {A : Type} (eqb : A -> A -> bool).
Hypothesis eqb_eq : forall x y, eqb x y = true <-> x = y.

Lemma mem_In (x : A) (l : list A) : Geometry.mem eqb x l = true <-> In x l.
Proof.
  induction l as [|y l IH]; cbn; [split; [discriminate|tauto]|].
  rewrite orb_true_iff, eqb_eq, IH. tauto.
Qed.

Lemma add_key_In (d : list A) (x y : A) :
  In y (Geometry.add_key eqb d x) <-> In y d \/ y = x.
Proof.
  unfold Geometry.add_key. destruct (Geometry.mem eqb x d) eqn:E.
  - apply mem_In in E. split; [tauto|]. intros [H| ->]; assumption.
  - rewrite in_app_iff. cbn. intuition congruence.
Qed.

Lemma add_key_NoDup (d : list A) (x : A) :
  NoDup d -> NoDup (Geometry.add_key eqb d x).
Proof.
  intro Hd. unfold Geometry.add_key.
  destruct (Geometry.mem eqb x d) eqn:E; [exact Hd|].
  apply NoDup_app; repeat split; auto.
  - constructor; [intros []|constructor].
  - intros z Hz [<-|[]]. apply mem_In in Hz. congruence.
Qed.

Lemma fold_add_key_In (xs d : list A) (y : A) :
  In y (fold_left (Geometry.add_key eqb) xs d) <-> In y d \/ In y xs.
Proof.
  revert d; induction xs as [|x xs IH]; intro d; cbn; [tauto|].
  rewrite IH, add_key_In. intuition congruence.
Qed.

Lemma fold_add_key_NoDup (xs d : list A) :
  NoDup d -> NoDup (fold_left (Geometry.add_key eqb) xs d).
Proof.
  revert d; induction xs as [|x xs IH]; intros d Hd; cbn; [exact Hd|].
  apply IH. now apply add_key_NoDup.
Qed.

Lemma fromkeys_In (xs : list A) (y : A) :
  In y (Geometry.fromkeys eqb xs) <-> In y xs.
Proof. unfold Geometry.fromkeys. rewrite fold_add_key_In. cbn. tauto. Qed.

Lemma fromkeys_NoDup (xs : list A) : NoDup (Geometry.fromkeys eqb xs).
Proof. apply fold_add_key_NoDup. constructor. Qed.
End FromKeysFacts.

Lemma point_eqb_eq (p q : Geometry.point) :
  Geometry.point_eqb p q = true <-> p = q.
Proof.
  destruct p as [x y], q as [x' y']. unfold Geometry.point_eqb; cbn.
  rewrite andb_true_iff, !Z.eqb_eq. split.
  - intros [-> ->]; reflexivity.
  - intro H; inversion H; auto.
Qed.

Lemma edge_eqb_eq (e f : Geometry.edge) :
  Geometry.edge_eqb e f = true <-> e = f.
Proof.
  destruct e as [a b], f as [a' b']. unfold Geometry.edge_eqb; cbn.
  rewrite andb_true_iff, !point_eqb_eq. split.
  - intros [-> ->]; reflexivity.
  - intro H; inversion H; auto.
Qed.

Section ZipFacts.
Context {A : Type}.

Lemma in_removelast (x : A) (l : list A) : In x (removelast l) -> In x l.
Proof.
  induction l as [|a l IH]; cbn; [tauto|].
  destruct l as [|b l']; [intros []|].
  intros [H|H]; [now left|right; now apply IH].
Qed.

Lemma in_tl (x : A) (l : list A) : In x (tl l) -> In x l.
Proof. destruct l; cbn; auto. Qed.

Lemma zip_adjacent_in (a b : A) (l : list A) :
  In (a, b) (combine (removelast l) (tl l)) -> In a l /\ In b l.
Proof.
  intro H. split.
  - apply in_removelast. eapply in_combine_l; eauto.
  - apply in_tl. eapply in_combine_r; eauto.
Qed.

(** With at least two elements, every element of [l] occurs in some pair
    of [zip(l[:-1], l[1:])]. *)
Lemma zip_adjacent_cover (l : list A) (x : A) :
  (2 <= List.length l)%nat -> In x l ->
  exists a b, In (a, b) (combine (removelast l) (tl l)) /\ (x = a \/ x = b).
Proof.
  induction l as [|a l IH]; cbn [List.length]; [lia|].
  destruct l as [|b l']; cbn [List.length]; [lia|]. intros _ Hin.
  change (removelast (a :: b :: l')) with (a :: removelast (b :: l')).
  cbn [tl combine].
  destruct Hin as [<-|Hin]; [exists a, b; split; [now left|now left]|].
  destruct l' as [|c l''].
  - destruct Hin as [<-|[]]. exists a, b. split; [now left|now right].
  - destruct (IH ltac:(cbn; lia) Hin) as (a' & b' & Hab & Hx).
    exists a', b'. split; [right; exact Hab|exact Hx].
Qed.
End ZipFacts.

(** The end points of the two edges of an edge pair. *)
Lemma in_pair_points (ep : Geometry.edge * Geometry.edge)
    (p : Geometry.point) :
  In p (flat_map (@Geometry.members Geometry.point)
          (Geometry.members ep))
  <-> p = fst (fst ep) \/ p = snd (fst ep)
      \/ p = fst (snd ep) \/ p = snd (snd ep).
Proof. cbn. intuition congruence. Qed.

Lemma in_flat_members {A : Type} (x : A) (l : list (A * A)) :
  In x (flat_map (@Geometry.members A) l)
  <-> exists pr, In pr l /\ (x = fst pr \/ x = snd pr).
Proof.
  rewrite in_flat_map. split; intros (pr & Hin & H); exists pr;
    (split; [exact Hin|]); cbn in *; intuition congruence.
Qed.

Lemma shell_In (vertices : list Geometry.point) (p : Geometry.point) :
  In p (Geometry.shell vertices) <->
  exists ep, In ep (Geometry.edge_pairs (Geometry.edges vertices))
             /\ Geometry.is_ccw_pair ep = true
             /\ In p (flat_map (@Geometry.members Geometry.point)
                        (Geometry.members ep)).
Proof.
  unfold Geometry.shell, Geometry.shell_of_pairs, Geometry.shell_edges.
  rewrite (fromkeys_In _ point_eqb_eq), in_flat_members. split.
  - intros (e & He & Hp).
    rewrite (fromkeys_In _ edge_eqb_eq) in He.
    apply in_flat_members in He as (ep & Hep & Hee).
    apply filter_In in Hep as [Hep Hc].
    exists ep. split; [exact Hep|]. split; [exact Hc|].
    apply in_pair_points. destruct Hee as [-> | ->]; tauto.
  - intros (ep & Hep & Hc & Hp). apply in_pair_points in Hp.
    assert (forall e, e = fst ep \/ e = snd ep ->
              In e (Geometry.fromkeys Geometry.edge_eqb
                      (flat_map (@Geometry.members Geometry.edge)
                         (filter Geometry.is_ccw_pair
                            (Geometry.edge_pairs
                               (Geometry.edges vertices)))))) as He.
    { intros e Hee. apply (fromkeys_In _ edge_eqb_eq).
      apply in_flat_members. exists ep. split; [|exact Hee].
      apply filter_In. auto. }
    destruct Hp as [Hp|[Hp|[Hp|Hp]]];
      [exists (fst ep)|exists (fst ep)|exists (snd ep)|exists (snd ep)];
      (split; [apply He; tauto|tauto]).
Qed.

Lemma holes_In (vertices : list Geometry.point) (p : Geometry.point) :
  In p (Geometry.holes vertices) <->
  exists ep, In ep (Geometry.edge_pairs (Geometry.edges vertices))
             /\ Geometry.is_ccw_pair ep = false
             /\ In p (flat_map (@Geometry.members Geometry.point)
                        (Geometry.members ep)).
Proof.
  unfold Geometry.holes, Geometry.holes_of_pairs, Geometry.holes_edges.
  rewrite (fromkeys_In _ point_eqb_eq), in_flat_members. split.
  - intros (e & He & Hp). apply in_rev in He.
    rewrite (fromkeys_In _ edge_eqb_eq) in He.
    apply in_flat_members in He as (ep & Hep & Hee).
    apply filter_In in Hep as [Hep Hc]. apply negb_true_iff in Hc.
    exists ep. split; [exact Hep|]. split; [exact Hc|].
    apply in_pair_points. destruct Hee as [-> | ->]; tauto.
  - intros (ep & Hep & Hc & Hp). apply in_pair_points in Hp.
    assert (forall e, e = fst ep \/ e = snd ep ->
              In e (rev (Geometry.fromkeys Geometry.edge_eqb
                      (flat_map (@Geometry.members Geometry.edge)
                         (filter (fun ep => negb (Geometry.is_ccw_pair ep))
                            (Geometry.edge_pairs
                               (Geometry.edges vertices))))))) as He.
    { intros e Hee. apply -> in_rev. apply (fromkeys_In _ edge_eqb_eq).
      apply in_flat_members. exists ep. split; [|exact Hee].
      apply filter_In. split; [exact Hep|]. now apply negb_true_iff. }
    destruct Hp as [Hp|[Hp|[Hp|Hp]]];
      [exists (fst ep)|exists (fst ep)|exists (snd ep)|exists (snd ep)];
      (split; [apply He; tauto|tauto]).
Qed.

Lemma pair_points_in_ring (vertices : list Geometry.point)
    (ep : Geometry.edge * Geometry.edge) (p : Geometry.point) :
  In ep (Geometry.edge_pairs (Geometry.edges vertices)) ->
  In p (flat_map (@Geometry.members Geometry.point) (Geometry.members ep)) ->
  In p vertices.
Proof.
  intros Hep Hp. destruct ep as [[a b] [c d]].
  apply zip_adjacent_in in Hep as [H1 H2].
  apply zip_adjacent_in in H1 as [Ha Hb].
  apply zip_adjacent_in in H2 as [Hc Hd].
  apply in_pair_points in Hp. cbn in Hp.
  destruct Hp as [->|[->|[->| ->]]]; assumption.
Qed.

(** What the assembly hands to the polygon constructor: the shell and the
    hole sequence have no repeated vertex; the shell holds exactly the end
    points of the edges of the pairs classified counter-clockwise, the
    hole sequence those of the pairs classified clockwise; and both hold
    vertices of the ring only. *)
Theorem shell_holes_contents (vertices : list Geometry.point) :
  NoDup (Geometry.shell vertices) /\ NoDup (Geometry.holes vertices)
  /\ (forall p,
        In p (Geometry.shell vertices) <->
        exists ep, In ep (Geometry.edge_pairs (Geometry.edges vertices))
                   /\ Geometry.is_ccw_pair ep = true
                   /\ In p (flat_map (@Geometry.members Geometry.point)
                              (Geometry.members ep)))
  /\ (forall p,
        In p (Geometry.holes vertices) <->
        exists ep, In ep (Geometry.edge_pairs (Geometry.edges vertices))
                   /\ Geometry.is_ccw_pair ep = false
                   /\ In p (flat_map (@Geometry.members Geometry.point)
                              (Geometry.members ep)))
  /\ incl (Geometry.shell vertices) vertices
  /\ incl (Geometry.holes vertices) vertices.
Proof.
  split; [apply (fromkeys_NoDup _ point_eqb_eq)|].
  split; [apply (fromkeys_NoDup _ point_eqb_eq)|].
  split; [apply shell_In|]. split; [apply holes_In|]. split.
  - intros p Hp. apply shell_In in Hp as (ep & Hep & _ & Hpp).
    eapply pair_points_in_ring; eauto.
  - intros p Hp. apply holes_In in Hp as (ep & Hep & _ & Hpp).
    eapply pair_points_in_ring; eauto.
Qed.

(** A ring of fewer than three vertices has fewer than two edges, hence no
    edge pair: shell and holes are both empty, and the polygon constructor
    receives an empty shell. *)
Theorem short_ring_is_empty (vertices : list Geometry.point) :
  (List.length vertices < 3)%nat ->
  Geometry.shell vertices = [] /\ Geometry.holes vertices = [].
Proof.
  destruct vertices as [|a [|b [|c vs]]]; cbn [List.length]; try lia;
    intros _; split; reflexivity.
Qed.

Lemma short_ring_is_empty_witness :
  Geometry.shell [(0, 0); (1, 0)] = [] /\ Geometry.holes [(0, 0); (1, 0)] = [].
Proof. apply (short_ring_is_empty [(0, 0); (1, 0)]). cbn. lia. Defined.

(** No vertex is lost: in a ring of at least three vertices every vertex
    ends up in the shell or in the hole sequence (possibly in both). *)
Theorem ring_vertices_covered (vertices : list Geometry.point)
    (p : Geometry.point) :
  (3 <= List.length vertices)%nat ->
  In p vertices ->
  In p (Geometry.shell vertices) \/ In p (Geometry.holes vertices).
Proof.
  intros Hlen Hp.
  destruct (zip_adjacent_cover vertices p ltac:(lia) Hp)
    as (a & b & Hab & Hpab).
  change (In (a, b) (Geometry.edges vertices)) in Hab.
  assert (2 <= List.length (Geometry.edges vertices))%nat as Hel.
  { pose proof (zip_adjacent_length vertices) as Hz.
    change (List.length (Geometry.edges vertices)
            = Nat.pred (List.length vertices)) in Hz. lia. }
  destruct (zip_adjacent_cover (Geometry.edges vertices) (a, b) Hel Hab)
    as (e1 & e2 & Hee & He).
  change (In (e1, e2) (Geometry.edge_pairs (Geometry.edges vertices)))
    in Hee.
  assert (In p (flat_map (@Geometry.members Geometry.point)
                  (Geometry.members (e1, e2)))) as Hin.
  { apply in_pair_points. cbn [fst snd].
    destruct He as [<-|<-]; cbn [fst snd]; destruct Hpab; tauto. }
  destruct (Geometry.is_ccw_pair (e1, e2)) eqn:Ec.
  - left. apply shell_In. exists (e1, e2). auto.
  - right. apply holes_In. exists (e1, e2). auto.
Qed.

Lemma ring_vertices_covered_witness :
  In (1, 1) (Geometry.shell square_ccw) \/ In (1, 1) (Geometry.holes square_ccw).
Proof.
  apply (ring_vertices_covered square_ccw (1, 1)).
  - cbn. lia.
  - cbn. tauto.
Defined.


(* ================================================================== *)
(** ** What a successful load says about the file                       *)
(* ================================================================== *)

Lemma build_layers_each (items : list (string * value)) :
  forall (d : layer_dict) (layerkey : string) (r : layer_dict * string),
    build_layers items d layerkey = Ok r ->
    forall nm e, In (nm, e) items -> exists l, build_layer nm e = Ok l.
Proof.
  induction items as [|[k e0] items IH]; intros d layerkey r H nm e Hin;
    [destruct Hin|].
  cbn [build_layers] in H. bind_inv H l Hl.
  destruct Hin as [Heq|Hin].
  - inversion Heq; subst. eauto.
  - eapply IH; eauto.
Qed.

Lemma build_layers_length (items : list (string * value)) :
  forall (d : layer_dict) (layerkey : string) (r : layer_dict * string),
    build_layers items d layerkey = Ok r ->
    (List.length d <= List.length (fst r)
     <= List.length d + List.length items)%nat
    /\ (items <> [] -> 1 <= List.length (fst r))%nat.
Proof.
  induction items as [|[k e0] items IH]; intros d layerkey r H;
    cbn [build_layers] in H.
  - inversion H; subst. cbn. split; [lia|congruence].
  - bind_inv H l Hl. destruct (IH _ _ _ H) as [Hb _].
    pose proof (dict_set_length (lydt l) l d) as Hs.
    assert (1 <= List.length (dict_set (lydt l) l d))%nat as Hpos.
    { destruct d as [|[k' l'] d']; cbn; [lia|].
      destruct (key_eqb k' (lydt l)); cbn; lia. }
    destruct (dict_get (lydt l) d); cbn [List.length]; split; intros; lia.
Qed.

(** A load returns a stack only for an existing file with a supported
    extension whose document parses, has at least one named entry and only
    complete entries; the stack then has at least one layer and at most one
    layer per entry (fewer when entries share a (ly, dt)). *)
Theorem load_layerstack_success (f : yaml_file) (s : LayerStack) :
  load_layerstack f = Ok s ->
  file_exists f = true
  /\ In (suffix f) _LAYERSTACK_FILE_EXTENSIONS
  /\ exists doc,
       parsed f = Some doc
       /\ named_entries doc <> []
       /\ (forall nm e, In (nm, e) (named_entries doc) ->
                        entry_complete e = true)
       /\ (1 <= len s <= List.length (named_entries doc))%nat.
Proof.
  unfold load_layerstack. intro H.
  destruct (file_exists f); [|discriminate]. split; [reflexivity|].
  cbn [py_assert bind result_monad ret] in H.
  destruct (str_mem (suffix f) _LAYERSTACK_FILE_EXTENSIONS) eqn:Es;
    [|discriminate]. split; [now apply str_mem_In|].
  cbn [negb] in H. destruct (parsed f) as [doc|]; [|discriminate].
  exists doc. split; [reflexivity|].
  assert (named_entries doc <> []) as Hne.
  { unfold load_layerstack_yaml in H. bind_inv H ls Hls.
    destruct (truthy ls) eqn:Et; [|discriminate]. cbn [negb] in H.
    bind_inv H lsv Hlsv. bind_inv H items Hitems.
    apply py_get_Ok in Hls. apply py_item_Ok in Hlsv. subst ls lsv.
    unfold named_entries. destruct (field doc "layers"); try discriminate.
    destruct d; [discriminate|discriminate]. }
  split; [exact Hne|].
  destruct (load_layerstack_yaml_stages _ _ H) as (d & layerkey & Hb & Hr).
  split.
  - intros nm e Hin. destruct (build_layers_each _ _ _ _ Hb nm e Hin)
      as (l & Hl). exact (build_layer_Ok _ _ _ Hl).
  - destruct (build_layers_length _ _ _ _ Hb) as [Hlen Hpos].
    cbn [fst List.length] in Hlen, Hpos.
    destruct (resolve_vias_preserves _ _ _ Hr) as [Hk _].
    unfold len. rewrite <- (length_map fst (layers s)).
    unfold dict_keys in Hk. rewrite Hk, length_map.
    specialize (Hpos Hne). lia.
Qed.

Lemma load_layerstack_success_witness :
  file_exists (file_of doc_twice) = true
  /\ In (suffix (file_of doc_twice)) _LAYERSTACK_FILE_EXTENSIONS
  /\ exists doc,
       parsed (file_of doc_twice) = Some doc
       /\ named_entries doc <> []
       /\ (forall nm e, In (nm, e) (named_entries doc) ->
                        entry_complete e = true)
       /\ (1 <= len (mkLayerStack (built_of doc_twice))
           <= List.length (named_entries doc))%nat.
Proof.
  apply (load_layerstack_success (file_of doc_twice)
           (mkLayerStack (built_of doc_twice))).
  vm_compute. reflexivity.
Defined.
